(** * Social-media backend: a shallow embedding of [server.js]

    The server is an Express application over two Mongoose collections
    ([User], [Post]).  Every route handler is an [async] function whose body
    sits in a [try]/[catch] that forwards the exception to the error
    middleware.  The embedding follows that shape:

    - the database is an explicit [Store] threaded through a small
      state-and-exception monad [M]; a thrown exception leaves the store as
      it was at the point of the throw;
    - Mongoose's statics ([findById], [findOne], [find], [findByIdAndUpdate],
      [findByIdAndDelete]) and [save] are functions on the store;
    - a route is run with [route], which plays the role of the [catch] branch
      and of the error middleware;
    - request fields are the strings a JSON client sends; identifiers reach
      the handlers as strings and are cast to [ObjectId] by the driver;
    - response bodies are JSON values, so that projections ([select],
      [populate]) are real operations on the serialised document. *)

From Stdlib Require Import String Ascii List Bool Arith ZArith Lia Eqdep_dec.
Import ListNotations.
Open Scope string_scope.
Open Scope list_scope.

Set Implicit Arguments.
Set Warnings "-register-all".

(** ** Strings *)

Fixpoint string_forall (p : ascii -> bool) (s : string) : bool :=
  match s with
  | EmptyString => true
  | String c s' => p c && string_forall p s'
  end.

Fixpoint string_map (f : ascii -> ascii) (s : string) : string :=
  match s with
  | EmptyString => EmptyString
  | String c s' => String (f c) (string_map f s')
  end.

Definition in_range (lo hi : nat) (c : ascii) : bool :=
  Nat.leb lo (nat_of_ascii c) && Nat.leb (nat_of_ascii c) hi.

Definition is_lower_hex (c : ascii) : bool :=
  in_range 48 57 c || in_range 97 102 c.

(** [A]..[F] become [a]..[f]; every other character is kept. *)
Definition to_lower_hex (c : ascii) : ascii :=
  if in_range 65 70 c then ascii_of_nat (nat_of_ascii c + 32) else c.

(** ** ObjectId

    A BSON ObjectId is twelve bytes; the only things the server does with one
    are to print it ([toString], 24 lower-case hexadecimal digits), to compare
    it, and to obtain it from a request string through the driver's cast, which
    accepts 24 hexadecimal digits of either case and fails (CastError)
    otherwise.  An [ObjectId] is therefore carried as its printed form.
    (Drivers older than bson 5 also read any 12-byte string as an identifier;
    that reading is left out.) *)

Definition canonical (s : string) : bool :=
  Nat.eqb (String.length s) 24 && string_forall is_lower_hex s.

Definition ObjectId : Type := { s : string | canonical s = true }.

Definition oidToString (o : ObjectId) : string := proj1_sig o.

Definition canonical_dec (s : string) : {canonical s = true} + {canonical s = false} :=
  match canonical s as b return {b = true} + {b = false} with
  | true => left eq_refl
  | false => right eq_refl
  end.

Definition castObjectId (raw : string) : option ObjectId :=
  match canonical_dec (string_map to_lower_hex raw) with
  | left H => Some (exist _ (string_map to_lower_hex raw) H)
  | right _ => None
  end.

Definition oid_eqb (a b : ObjectId) : bool :=
  String.eqb (oidToString a) (oidToString b).

(** ** JSON values (response bodies) *)

Inductive JSON : Type :=
| JNull
| JBool (b : bool)
| JNum (z : Z)
| JDate (ms : Z)            (* a Date, serialised as its ISO-8601 string *)
| JStr (s : string)
| JArr (l : list JSON)
| JObj (fields : list (string * JSON)).

Definition fields_of (j : JSON) : list (string * JSON) :=
  match j with JObj fs => fs | _ => [] end.

Fixpoint field (k : string) (fs : list (string * JSON)) : option JSON :=
  match fs with
  | [] => None
  | (k', v) :: fs' => if String.eqb k k' then Some v else field k fs'
  end.

Definition has_field (k : string) (j : JSON) : bool :=
  existsb (fun kv => String.eqb k (fst kv)) (fields_of j).

(** Projection [select('-k')]: every field but [k]. *)
Definition select_exclude (k : string) (fs : list (string * JSON)) :=
  filter (fun kv => negb (String.eqb k (fst kv))) fs.

(** Projection ["k1 k2 ..."]: the named fields only. *)
Definition select_only (ks : list string) (fs : list (string * JSON)) :=
  filter (fun kv => existsb (String.eqb (fst kv)) ks) fs.

Definition JId (o : ObjectId) : JSON := JStr (oidToString o).

(** ** Mongoose documents

    A document read from the database is neither new nor modified; [new
    Model(...)] gives a new one; a mutation of a path marks it modified.
    [save] looks at both flags. *)

Module Document.
Record t (A : Type) : Type := mk { value : A; isNew : bool; isModified : bool }.
Definition loaded {A} (a : A) : t A := mk a false false.
Definition fresh {A} (a : A) : t A := mk a true true.
Definition modify {A} (f : A -> A) (d : t A) : t A :=
  mk (f (value d)) (isNew d) true.
End Document.

(** ** Schemas

    The two schemas of [server.js], with the [createdAt] and [updatedAt]
    paths that [timestamps: true] adds (milliseconds).  The driver's version
    key [__v] is not modelled. *)

Module UserSchema.
Record t : Type := mk {
  _id : ObjectId;
  username : string;
  email : string;
  password : string;
  profilePicture : string;
  friends : list ObjectId;
  createdAt : Z;
  updatedAt : Z
}.

Definition toJSON (u : t) : list (string * JSON) :=
  [ ("_id", JId (_id u));
    ("username", JStr (username u));
    ("email", JStr (email u));
    ("password", JStr (password u));
    ("profilePicture", JStr (profilePicture u));
    ("friends", JArr (map JId (friends u)));
    ("createdAt", JDate (createdAt u));
    ("updatedAt", JDate (updatedAt u)) ].

(** [required: true] on a String path rejects the empty string. *)
Definition validate (u : t) : bool :=
  negb (String.eqb (username u) "") &&
  negb (String.eqb (email u) "") &&
  negb (String.eqb (password u) "").
End UserSchema.

Inductive Privacy : Type := Public | Friends | Private.

Definition privacy_name (p : Privacy) : string :=
  match p with Public => "Public" | Friends => "Friends" | Private => "Private" end.

Module PostSchema.
Record comment : Type := mkComment {
  c_id : ObjectId;
  c_userId : option ObjectId;
  c_text : string
}.

Record t : Type := mk {
  _id : ObjectId;
  userId : ObjectId;
  content : string;
  image : string;
  likes : list ObjectId;
  comments : list comment;
  privacy : Privacy;
  createdAt : Z;
  updatedAt : Z
}.

Definition comment_toJSON (c : comment) : JSON :=
  JObj [ ("userId", match c_userId c with Some o => JId o | None => JNull end);
         ("text", JStr (c_text c));
         ("_id", JId (c_id c)) ].

(** [owner] is what stands in the [userId] field: the reference itself, or
    what [populate] put in its place. *)
Definition toJSON (owner : JSON) (p : t) : list (string * JSON) :=
  [ ("_id", JId (_id p));
    ("userId", owner);
    ("content", JStr (content p));
    ("image", JStr (image p));
    ("likes", JArr (map JId (likes p)));
    ("comments", JArr (map comment_toJSON (comments p)));
    ("privacy", JStr (privacy_name (privacy p)));
    ("createdAt", JDate (createdAt p));
    ("updatedAt", JDate (updatedAt p)) ].
End PostSchema.

(** ** The database *)

Record Store : Type := mkStore {
  users : list UserSchema.t;
  posts : list PostSchema.t
}.

(** ** Handlers: state and exceptions *)

Inductive Error : Type :=
| CastError          (* a string that is not an ObjectId *)
| TypeError          (* a property read on [null] *)
| ValidationError    (* a schema validator rejected the document *)
| MongoServerError   (* a unique index rejected the write *)
| JsonWebTokenError. (* [jwt.sign] rejected its options *)

Inductive Outcome (A : Type) : Type :=
| Return (a : A)
| Throw (e : Error).
Arguments Throw {A} e.

Definition M (A : Type) : Type := Store -> Outcome A * Store.

Definition ret {A} (a : A) : M A := fun s => (Return a, s).

Definition throw {A} (e : Error) : M A := fun s => (Throw e, s).

Definition bind {A B} (m : M A) (k : A -> M B) : M B :=
  fun s =>
    match m s with
    | (Return a, s') => k a s'
    | (Throw e, s') => (Throw e, s')
    end.

Definition get : M Store := fun s => (Return s, s).

Definition put (s' : Store) : M unit := fun _ => (Return tt, s').

Declare Scope handler_scope.
Delimit Scope handler_scope with handler.
Notation "x <- m ;; k" := (bind m (fun x => k))
  (at level 61, m at next level, right associativity) : handler_scope.
Notation "m ;;; k" := (bind m (fun _ => k))
  (at level 61, right associativity) : handler_scope.
Open Scope handler_scope.

(** The driver's cast of a request string to an ObjectId. *)
Definition cast (raw : string) : M ObjectId :=
  match castObjectId raw with
  | Some o => ret o
  | None => throw CastError
  end.

Record Response : Type := mkResponse { status : nat; body : JSON }.

(** [res.json(x)] answers 200. *)
Definition json (j : JSON) : Response := mkResponse 200 j.

(** The error middleware: [res.status(500).json({ error: ... })]. *)
Definition internal_server_error : Response :=
  mkResponse 500 (JObj [("error", JStr "Internal Server Error")]).

(** A route: the handler's [catch] passes the exception to [next], which
    reaches the error middleware. *)
Definition route (h : M Response) (s : Store) : Response * Store :=
  match h s with
  | (Return r, s') => (r, s')
  | (Throw _, s') => (internal_server_error, s')
  end.

(** ** Collection primitives *)

Section Collection.
Variable A : Type.
Variable key : A -> ObjectId.

Definition lookup (o : ObjectId) (l : list A) : option A :=
  find (fun a => oid_eqb (key a) o) l.

(** Replace the first document whose [_id] is [o]. *)
Fixpoint updateOne (o : ObjectId) (f : A -> A) (l : list A) : list A :=
  match l with
  | [] => []
  | a :: l' => if oid_eqb (key a) o then f a :: l' else a :: updateOne o f l'
  end.

(** Remove the first document whose [_id] is [o]. *)
Fixpoint deleteOne (o : ObjectId) (l : list A) : list A :=
  match l with
  | [] => []
  | a :: l' => if oid_eqb (key a) o then l' else a :: deleteOne o l'
  end.
End Collection.

(** ** Arrays of references on a document *)

Module MongooseArray.
(** [arr.includes(v)]: the request string is compared, with [==], to each
    element, which prints itself for the comparison. *)
Definition includes (arr : list ObjectId) (v : string) : bool :=
  existsb (fun o => String.eqb v (oidToString o)) arr.

(** [arr.push(v)] casts [v] to the element type. *)
Definition push (arr : list ObjectId) (v : string) : M (list ObjectId) :=
  o <- cast v ;; ret (arr ++ [o]).

(** [$pull: { path: o }] removes every occurrence. *)
Definition pull (arr : list ObjectId) (o : ObjectId) : list ObjectId :=
  filter (fun x => negb (oid_eqb x o)) arr.
End MongooseArray.

(** ** The [User] model *)

Module User.
Import UserSchema.

Definition doc : Type := Document.t UserSchema.t.

Definition set_friends (fs : list ObjectId) (u : t) : t :=
  mk (_id u) (username u) (email u) (password u) (profilePicture u) fs
     (createdAt u) (updatedAt u).

Definition set_profilePicture (pic : string) (u : t) : t :=
  mk (_id u) (username u) (email u) (password u) pic (friends u)
     (createdAt u) (updatedAt u).

Definition set_updatedAt (now : Z) (u : t) : t :=
  mk (_id u) (username u) (email u) (password u) (profilePicture u) (friends u)
     (createdAt u) now.

Definition set_createdAt (now : Z) (u : t) : t :=
  mk (_id u) (username u) (email u) (password u) (profilePicture u) (friends u)
     now (updatedAt u).

Definition set_users (us : list t) (s : Store) : Store := mkStore us (posts s).

(** [new User({ username, email, password })]: the schema defaults fill
    the other paths; the timestamps are set by [save]. *)
Definition new (id : ObjectId) (username email password : string) : doc :=
  Document.fresh (mk id username email password "" [] 0 0).

(** [User.findOne({ email })] *)
Definition findOne_email (e : string) : M (option doc) :=
  s <- get ;;
  ret (option_map Document.loaded
         (find (fun u => String.eqb (email u) e) (users s))).

(** [User.findOne({ username })] *)
Definition findOne_username (n : string) : M (option doc) :=
  s <- get ;;
  ret (option_map Document.loaded
         (find (fun u => String.eqb (username u) n) (users s))).

(** [User.findById(id)] *)
Definition findById (id : string) : M (option doc) :=
  o <- cast id ;;
  s <- get ;;
  ret (option_map Document.loaded (lookup _id o (users s))).

(** [User.find({ _id: { $ne: id } })] *)
Definition find_ne (id : string) : M (list t) :=
  o <- cast id ;;
  s <- get ;;
  ret (filter (fun u => negb (oid_eqb (_id u) o)) (users s)).

(** [User.findByIdAndUpdate(id, update, { new: true })]; the schema's
    [timestamps] option refreshes [updatedAt]. *)
Definition findByIdAndUpdate (now : Z) (id : string) (update : t -> t)
  : M (option doc) :=
  o <- cast id ;;
  s <- get ;;
  match lookup _id o (users s) with
  | None => ret None
  | Some u =>
      let u' := set_updatedAt now (update u) in
      put (set_users (updateOne _id o (fun _ => u') (users s)) s) ;;;
      ret (Some (Document.loaded u'))
  end.

(** The unique indexes: [_id], [username], [email]. *)
Definition clashes (u v : t) : bool :=
  oid_eqb (_id v) (_id u) ||
  String.eqb (username v) (username u) ||
  String.eqb (email v) (email u).

(** [doc.save()].  A new document is validated and inserted; a modified
    one is written back over the stored one; an untouched one is left
    alone. *)
Definition save (now : Z) (d : doc) : M doc :=
  let u := Document.value d in
  if Document.isNew d then
    if validate u then
      s <- get ;;
      if existsb (clashes u) (users s) then throw MongoServerError
      else
        let u' := set_updatedAt now (set_createdAt now u) in
        put (set_users (users s ++ [u']) s) ;;;
        ret (Document.loaded u')
    else throw ValidationError
  else if Document.isModified d then
    s <- get ;;
    let u' := set_updatedAt now u in
    put (set_users (updateOne _id (_id u) (fun _ => u') (users s)) s) ;;;
    ret (Document.loaded u')
  else ret d.

(** What [populate(path, fields)] puts in place of a reference: the
    selected fields and [_id], or nothing when the reference dangles. *)
Definition populated (fields : list string) (s : Store) (o : ObjectId)
  : option JSON :=
  option_map (fun u => JObj (select_only ("_id" :: fields) (toJSON u)))
             (lookup _id o (users s)).
End User.

(** ** The [Post] model *)

Module Post.
Import PostSchema.

Definition doc : Type := Document.t PostSchema.t.

Definition set_likes (ls : list ObjectId) (p : t) : t :=
  mk (_id p) (userId p) (content p) (image p) ls (comments p) (privacy p)
     (createdAt p) (updatedAt p).

Definition set_updatedAt (now : Z) (p : t) : t :=
  mk (_id p) (userId p) (content p) (image p) (likes p) (comments p) (privacy p)
     (createdAt p) now.

Definition set_posts (ps : list t) (s : Store) : Store := mkStore (users s) ps.

(** [Post.findById(id)] *)
Definition findById (id : string) : M (option doc) :=
  o <- cast id ;;
  s <- get ;;
  ret (option_map Document.loaded (lookup _id o (posts s))).

(** [Post.find()] *)
Definition find_all : M (list t) :=
  s <- get ;; ret (posts s).

(** [query.populate('userId', fields)]: a dangling owner becomes [null]. *)
Definition populate_userId (fields : list string) (ps : list t)
  : M (list (list (string * JSON))) :=
  s <- get ;;
  ret (map (fun p =>
              toJSON (match User.populated fields s (userId p) with
                      | Some j => j
                      | None => JNull
                      end) p) ps).

(** [Post.findByIdAndUpdate(id, { $pull: { likes: v } }, { new: true })] *)
Definition findByIdAndUpdate_pull_likes (now : Z) (id : string) (v : string)
  : M (option doc) :=
  o <- cast id ;;
  u <- cast v ;;
  s <- get ;;
  match lookup _id o (posts s) with
  | None => ret None
  | Some p =>
      let p' := set_updatedAt now (set_likes (MongooseArray.pull (likes p) u) p) in
      put (set_posts (updateOne _id o (fun _ => p') (posts s)) s) ;;;
      ret (Some (Document.loaded p'))
  end.

(** [Post.findByIdAndDelete(id)] *)
Definition findByIdAndDelete (id : string) : M (option doc) :=
  o <- cast id ;;
  s <- get ;;
  put (set_posts (deleteOne _id o (posts s)) s) ;;;
  ret (option_map Document.loaded (lookup _id o (posts s))).

(** [post.save()] on a document that was read from the collection. *)
Definition save (now : Z) (d : doc) : M doc :=
  let p := Document.value d in
  if Document.isModified d then
    s <- get ;;
    let p' := set_updatedAt now p in
    put (set_posts (updateOne _id (_id p) (fun _ => p') (posts s)) s) ;;;
    ret (Document.loaded p')
  else ret d.

(** A post as [res.json] prints it, its owner left as a reference. *)
Definition plain (p : t) : JSON := JObj (toJSON (JId (userId p)) p).
End Post.

(** ** Libraries the handlers call *)

Module bcrypt.
(** [hash password rounds salt] is bcryptjs's [hash(password, rounds)] for
    the salt it drew; the result is the 60-character bcrypt string, never
    empty. *)
Class Lib : Type := {
  hash : string -> nat -> string -> string;
  compare : string -> string -> bool;
  hash_nonempty : forall p r s, hash p r s <> ""
}.
End bcrypt.

Module jwt.
Record Payload : Type := mkPayload { id : ObjectId; iat : Z; exp : Z }.

(** The compact serialisation of a signed payload. *)
Class Lib : Type := { encode : Payload -> string -> string }.

Definition digit_value (c : ascii) : option Z :=
  if in_range 48 57 c then Some (Z.of_nat (nat_of_ascii c - 48)) else None.

Definition unit_seconds (u : string) : option Z :=
  if String.eqb u "s" then Some 1%Z
  else if String.eqb u "m" then Some 60%Z
  else if String.eqb u "h" then Some 3600%Z
  else if String.eqb u "d" then Some 86400%Z
  else None.

(** A time span such as ['1h']: digits, then a unit. *)
Fixpoint timespan_from (acc : Z) (seen : bool) (s : string) : option Z :=
  match s with
  | EmptyString => None
  | String c s' =>
      match digit_value c with
      | Some d => timespan_from (10 * acc + d) true s'
      | None => if seen then option_map (Z.mul acc) (unit_seconds s) else None
      end
  end.

Definition timespan (s : string) : option Z := timespan_from 0 false s.

(** [jwt.sign({ id }, secret, { expiresIn })] at the instant [now]
    (milliseconds); the claims are in seconds. *)
Definition sign `{Lib} (now : Z) (user : ObjectId) (secret expiresIn : string)
  : M string :=
  match timespan expiresIn with
  | None => throw JsonWebTokenError
  | Some span =>
      let t := (now / 1000)%Z in
      ret (encode (mkPayload user t (t + span)) secret)
  end.
End jwt.

(** What a request takes from its surroundings: the clock, the identifier
    and the salt the libraries generate, and the signing secret of the
    process environment. *)
Record Env : Type := mkEnv {
  now : Z;
  newId : ObjectId;
  salt : string;
  JWT_SECRET : string
}.

(** ** The routes *)

Section Routes.
Context {B : bcrypt.Lib} {J : jwt.Lib}.
Variable env : Env.

Definition error (code : nat) (msg : string) : Response :=
  mkResponse code (JObj [("error", JStr msg)]).

(** [POST /signup] *)
Definition post_signup (username email password : string) : M Response :=
  existingEmail <- User.findOne_email email ;;
  match existingEmail with
  | Some _ => ret (error 400 "Email already registered")
  | None =>
      existingUsername <- User.findOne_username username ;;
      match existingUsername with
      | Some _ => ret (error 400 "Username already taken")
      | None =>
          let hashedPassword := bcrypt.hash password 10 (salt env) in
          let newUser := User.new (newId env) username email hashedPassword in
          User.save (now env) newUser ;;;
          ret (mkResponse 201
                 (JObj [("message", JStr "User registered successfully")]))
      end
  end.

(** [POST /login] *)
Definition post_login (email password : string) : M Response :=
  user <- User.findOne_email email ;;
  match user with
  | None => ret (error 400 "User not found")
  | Some d =>
      let u := Document.value d in
      let isMatch := bcrypt.compare password (UserSchema.password u) in
      if negb isMatch then ret (error 400 "Invalid credentials")
      else
        token <- jwt.sign (now env) (UserSchema._id u) (JWT_SECRET env) "1h" ;;
        ret (json (JObj [("token", JStr token);
                         ("user", JObj (UserSchema.toJSON u))]))
  end.

(** [GET /posts] *)
Definition get_posts : M Response :=
  found <- Post.find_all ;;
  posts <- Post.populate_userId ["username"] found ;;
  ret (json (JArr (map JObj posts))).

(** [POST /post/like] *)
Definition post_post_like (userId postId : string) : M Response :=
  post <- Post.findById postId ;;
  match post with
  | None => throw TypeError                      (* [post.likes] on [null] *)
  | Some d =>
      if negb (MongooseArray.includes (PostSchema.likes (Document.value d)) userId)
      then
        likes <- MongooseArray.push (PostSchema.likes (Document.value d)) userId ;;
        saved <- Post.save (now env) (Document.modify (Post.set_likes likes) d) ;;
        ret (json (Post.plain (Document.value saved)))
      else
        updated <- Post.findByIdAndUpdate_pull_likes (now env) postId userId ;;
        match updated with
        | None => throw TypeError                (* [post.save] on [null] *)
        | Some d' =>
            saved <- Post.save (now env) d' ;;
            ret (json (Post.plain (Document.value saved)))
        end
  end.

(** [DELETE /posts/:postId] *)
Definition delete_posts (postId userId : string) : M Response :=
  post <- Post.findById postId ;;
  match post with
  | None => ret (error 404 "Post not found")
  | Some d =>
      if negb (String.eqb (oidToString (PostSchema.userId (Document.value d)))
                          userId)
      then ret (error 403 "You can only delete your own posts")
      else
        Post.findByIdAndDelete postId ;;;
        ret (json (JObj [("message", JStr "Post deleted successfully");
                         ("postId", JStr postId)]))
  end.

(** [GET /users?userId=] *)
Definition get_users (userId : string) : M Response :=
  found <- User.find_ne userId ;;
  ret (json (JArr (map (fun u =>
                          JObj (select_only ["_id"; "username"; "profilePicture"]
                                            (UserSchema.toJSON u)))
                       found))).

(** [POST /add-friend] *)
Definition post_add_friend (userId friendId : string) : M Response :=
  user <- User.findById userId ;;
  match user with
  | None => throw TypeError                      (* [user.friends] on [null] *)
  | Some d =>
      (if negb (MongooseArray.includes (UserSchema.friends (Document.value d))
                                       friendId)
       then
         friends <- MongooseArray.push (UserSchema.friends (Document.value d))
                                       friendId ;;
         User.save (now env) (Document.modify (User.set_friends friends) d) ;;;
         ret tt
       else ret tt) ;;;
      ret (json (JObj [("success", JBool true);
                       ("message", JStr "Friend Added")]))
  end.

(** [GET /user/:userId/friends]; a populated array drops the references
    that dangle. *)
Definition get_user_friends (userId : string) : M Response :=
  user <- User.findById userId ;;
  s <- get ;;
  match user with
  | None => ret (error 404 "User not found")
  | Some d =>
      ret (json (JArr (flat_map
                         (fun o =>
                            match User.populated ["username"; "profilePicture"] s o with
                            | Some j => [j]
                            | None => []
                            end)
                         (UserSchema.friends (Document.value d)))))
  end.

(** [PUT /users/:id/profile-picture] *)
Definition put_users_profile_picture (id profilePicture : string) : M Response :=
  user <- User.findByIdAndUpdate (now env) id
            (User.set_profilePicture profilePicture) ;;
  match user with
  | None =>
      ret (mkResponse 404 (JObj [("success", JBool false);
                                 ("message", JStr "User not found")]))
  | Some d =>
      ret (json (JObj [("success", JBool true);
                       ("message", JStr "Profile picture updated successfully");
                       ("user", JObj (UserSchema.toJSON (Document.value d)))]))
  end.

(** [GET /user/:id]: [findById(id).select('-password')]; [res.json(null)]
    when nobody has that id. *)
Definition get_user (id : string) : M Response :=
  user <- User.findById id ;;
  ret (json (match user with
             | None => JNull
             | Some d =>
                 JObj (select_exclude "password"
                         (UserSchema.toJSON (Document.value d)))
             end)).
End Routes.

(** ** Reading the store *)

(** The like-list of the post [o], when there is one. *)
Definition likes_of (o : ObjectId) (s : Store) : option (list ObjectId) :=
  option_map PostSchema.likes (lookup PostSchema._id o (posts s)).

(** The friends list of the user [o], when there is one. *)
Definition friends_of (o : ObjectId) (s : Store) : option (list ObjectId) :=
  option_map UserSchema.friends (lookup UserSchema._id o (users s)).

(** How many times [o] occurs in a list of references. *)
Definition occurrences (o : ObjectId) (l : list ObjectId) : nat :=
  length (filter (oid_eqb o) l).

(** ** [String.prototype.trim]

    The [content] path is declared [trim: true]: its setter calls [trim],
    which drops the white space and the line terminators of ECMAScript at
    both ends.  A request string is taken as UTF-8, so a white-space
    character is one, two or three bytes. *)

Definition byte_is (n : nat) (c : ascii) : bool := Nat.eqb (nat_of_ascii c) n.

(** TAB, LF, VT, FF, CR and SPACE. *)
Definition ws1 (a : ascii) : bool := in_range 9 13 a || byte_is 32 a.

(** U+00A0. *)
Definition ws2 (a b : ascii) : bool := byte_is 194 a && byte_is 160 b.

(** U+1680, U+2000..U+200A, U+2028, U+2029, U+202F, U+205F, U+3000, U+FEFF. *)
Definition ws3 (a b c : ascii) : bool :=
  (byte_is 225 a && byte_is 154 b && byte_is 128 c)
  || (byte_is 226 a && byte_is 128 b &&
      (in_range 128 138 c || in_range 168 169 c || byte_is 175 c))
  || (byte_is 226 a && byte_is 129 b && byte_is 159 c)
  || (byte_is 227 a && byte_is 128 b && byte_is 128 c)
  || (byte_is 239 a && byte_is 187 b && byte_is 191 c).

Fixpoint strip (w1 : ascii -> bool) (w2 : ascii -> ascii -> bool)
         (w3 : ascii -> ascii -> ascii -> bool) (s : string) : string :=
  match s with
  | EmptyString => s
  | String a s1 =>
      if w1 a then strip w1 w2 w3 s1
      else
        match s1 with
        | EmptyString => s
        | String b s2 =>
            if w2 a b then strip w1 w2 w3 s2
            else
              match s2 with
              | EmptyString => s
              | String c s3 => if w3 a b c then strip w1 w2 w3 s3 else s
              end
        end
  end.

Fixpoint string_rev (s : string) : string :=
  match s with
  | EmptyString => EmptyString
  | String c s' => (string_rev s' ++ String c EmptyString)%string
  end.

Definition trimStart (s : string) : string := strip ws1 ws2 ws3 s.

Definition trimEnd (s : string) : string :=
  string_rev (strip ws1 (fun a b => ws2 b a) (fun a b c => ws3 c b a)
                    (string_rev s)).

Definition trim (s : string) : string := trimEnd (trimStart s).

(** ** POST /posts

    [new Post(...)] and the [save] of a new post; [Post.save] above is the
    [save] of a post that was read from the collection. *)

Definition privacy_of_name (n : string) : option Privacy :=
  if String.eqb n "Public" then Some Public
  else if String.eqb n "Friends" then Some Friends
  else if String.eqb n "Private" then Some Private
  else None.

Definition Post_set_createdAt (now : Z) (p : PostSchema.t) : PostSchema.t :=
  PostSchema.mk (PostSchema._id p) (PostSchema.userId p) (PostSchema.content p)
                (PostSchema.image p) (PostSchema.likes p) (PostSchema.comments p)
                (PostSchema.privacy p) now (PostSchema.updatedAt p).

(** [new Post({ userId, content, image, privacy })].  The owner is cast, the
    content trimmed, an absent image is [""] and an absent privacy is
    [Public].  A failed cast and a privacy outside the enum are kept with
    the document and reported by [save]: [None] stands for such a document. *)
Definition Post_new (id : ObjectId) (userId content : string)
           (image privacy : option string) : option Post.doc :=
  match castObjectId userId with
  | None => None
  | Some owner =>
      match match privacy with
            | None => Some Public
            | Some n => privacy_of_name n
            end with
      | None => None
      | Some pr =>
          Some (Document.fresh
                  (PostSchema.mk id owner (trim content)
                                 match image with Some i => i | None => "" end
                                 [] [] pr 0 0))
      end
  end.

(** [newPost.save()]: validation ([content] is required), then the insert,
    which the unique index on [_id] can refuse. *)
Definition Post_save_new (now : Z) (d : option Post.doc) : M Post.doc :=
  match d with
  | None => throw ValidationError
  | Some d =>
      let p := Document.value d in
      if String.eqb (PostSchema.content p) "" then throw ValidationError
      else
        s <- get ;;
        if existsb (fun q => oid_eqb (PostSchema._id q) (PostSchema._id p)) (posts s)
        then throw MongoServerError
        else
          let p' := Post.set_updatedAt now (Post_set_createdAt now p) in
          put (Post.set_posts (posts s ++ [p']) s) ;;;
          ret (Document.loaded p')
  end.

(** [POST /posts] *)
Definition post_posts (env : Env) (userId content : string)
           (image privacy : option string) : M Response :=
  let newPost := Post_new (newId env) userId content image privacy in
  saved <- Post_save_new (now env) newPost ;;
  found <- Post.findById (oidToString (PostSchema._id (Document.value saved))) ;;
  populatedPost <- Post.populate_userId ["username"; "profilePicture"]
                     match found with
                     | Some d => [Document.value d]
                     | None => []
                     end ;;
  ret (mkResponse 201 match populatedPost with
                      | j :: _ => JObj j
                      | [] => JNull
                      end).

(** ** The application

    The route table of [server.js]: one constructor per [app.METHOD(path,
    handler)] registration, carrying what the handler reads from the
    request. *)

Inductive Request : Type :=
| POST_signup (username email password : string)
| POST_login (email password : string)
| POST_posts (userId content : string) (image privacy : option string)
| GET_posts
| POST_post_like (userId postId : string)
| DELETE_posts (postId userId : string)
| GET_users (userId : string)
| POST_add_friend (userId friendId : string)
| GET_user_friends (userId : string)
| PUT_users_profile_picture (id profilePicture : string)
| GET_user (id : string).

Definition app {B : bcrypt.Lib} {J : jwt.Lib} (env : Env) (req : Request)
  : Store -> Response * Store :=
  route match req with
        | POST_signup username email password =>
            post_signup env username email password
        | POST_login email password => post_login env email password
        | POST_posts userId content image privacy =>
            post_posts env userId content image privacy
        | GET_posts => get_posts
        | POST_post_like userId postId => post_post_like env userId postId
        | DELETE_posts postId userId => delete_posts postId userId
        | GET_users userId => get_users userId
        | POST_add_friend userId friendId => post_add_friend env userId friendId
        | GET_user_friends userId => get_user_friends userId
        | PUT_users_profile_picture id profilePicture =>
            put_users_profile_picture env id profilePicture
        | GET_user id => get_user id
        end.

(** Requests served one after the other, each with its own surroundings. *)
Fixpoint serve {B : bcrypt.Lib} {J : jwt.Lib} (reqs : list (Env * Request))
         (s : Store) : Store :=
  match reqs with
  | [] => s
  | (env, req) :: rest => serve rest (snd (app env req s))
  end.

(** ** What a request can do to the store *)

Definition same_identity (u u' : UserSchema.t) : Prop :=
  UserSchema._id u' = UserSchema._id u /\
  UserSchema.username u' = UserSchema.username u /\
  UserSchema.email u' = UserSchema.email u /\
  UserSchema.password u' = UserSchema.password u /\
  UserSchema.createdAt u' = UserSchema.createdAt u.

Definition same_post (p p' : PostSchema.t) : Prop :=
  PostSchema._id p' = PostSchema._id p /\
  PostSchema.userId p' = PostSchema.userId p /\
  PostSchema.content p' = PostSchema.content p /\
  PostSchema.image p' = PostSchema.image p /\
  PostSchema.comments p' = PostSchema.comments p /\
  PostSchema.privacy p' = PostSchema.privacy p /\
  PostSchema.createdAt p' = PostSchema.createdAt p.

(** Nothing, or one document added, rewritten or removed. *)
Inductive Transition (s s' : Store) : Prop :=
| t_none : s' = s -> Transition s s'
| t_user_added (u : UserSchema.t) :
    users s' = users s ++ [u] -> posts s' = posts s ->
    UserSchema.validate u = true ->
    existsb (User.clashes u) (users s) = false ->
    Transition s s'
| t_post_added (p : PostSchema.t) :
    posts s' = posts s ++ [p] -> users s' = users s ->
    PostSchema.content p <> "" ->
    PostSchema.likes p = [] -> PostSchema.comments p = [] ->
    existsb (fun q => oid_eqb (PostSchema._id q) (PostSchema._id p)) (posts s) = false ->
    Transition s s'
| t_user_updated (before after : list UserSchema.t) (u u' : UserSchema.t) :
    users s = before ++ u :: after -> users s' = before ++ u' :: after ->
    posts s' = posts s -> same_identity u u' ->
    Transition s s'
| t_post_updated (before after : list PostSchema.t) (p p' : PostSchema.t) :
    posts s = before ++ p :: after -> posts s' = before ++ p' :: after ->
    users s' = users s -> same_post p p' ->
    Transition s s'
| t_post_deleted (before after : list PostSchema.t) (p : PostSchema.t) :
    posts s = before ++ p :: after -> posts s' = before ++ after ->
    users s' = users s ->
    Transition s s'.

(** The store as the schemas want it: the unique indexes hold and the
    required paths are filled. *)
Record well_formed (s : Store) : Prop := mk_well_formed {
  wf_user_ids : NoDup (map UserSchema._id (users s));
  wf_usernames : NoDup (map UserSchema.username (users s));
  wf_emails : NoDup (map UserSchema.email (users s));
  wf_post_ids : NoDup (map PostSchema._id (posts s));
  wf_users : Forall (fun u => UserSchema.validate u = true) (users s);
  wf_posts : Forall (fun p => PostSchema.content p <> "") (posts s)
}.

(** Who a user is: what no route rewrites once the user is stored. *)
Definition identity (u : UserSchema.t) : ObjectId * string * string * string :=
  (UserSchema._id u, UserSchema.username u, UserSchema.email u,
   UserSchema.password u).

(** The routes that only read: [login] and the [GET] routes. *)
Definition reads_only (req : Request) : bool :=
  match req with
  | POST_login _ _ | GET_posts | GET_users _ | GET_user_friends _ | GET_user _ => true
  | _ => false
  end.

(** The elements of a JSON array. *)
Definition elements (j : JSON) : list JSON :=
  match j with JArr l => l | _ => [] end.

(** A user as the listings show it. *)
Definition card (u : UserSchema.t) : JSON :=
  JObj [("_id", JId (UserSchema._id u));
        ("username", JStr (UserSchema.username u));
        ("profilePicture", JStr (UserSchema.profilePicture u))].

(** A post as [GET /posts] shows it in the store [s]. *)
Definition listed (s : Store) (p : PostSchema.t) : JSON :=
  JObj (PostSchema.toJSON
          match User.populated ["username"] s (PostSchema.userId p) with
          | Some j => j
          | None => JNull
          end p).

(** ** Sample data *)

Module Fixture.
Definition oid (s : string) (H : canonical s = true) : ObjectId := exist _ s H.

Definition alice_id : ObjectId := oid "aaaaaaaaaaaaaaaaaaaaaaaa" eq_refl.
Definition bob_id : ObjectId := oid "bbbbbbbbbbbbbbbbbbbbbbbb" eq_refl.
Definition carol_id : ObjectId := oid "cccccccccccccccccccccccc" eq_refl.
Definition post1_id : ObjectId := oid "111111111111111111111111" eq_refl.
Definition post2_id : ObjectId := oid "222222222222222222222222" eq_refl.

(** A stand-in for bcrypt: the salt, then the password. *)
Definition toy_bcrypt : bcrypt.Lib :=
  {| bcrypt.hash := fun p _ s => String "$" (s ++ p)%string;
     bcrypt.compare := fun p h => String.eqb h (String "$" ("salt" ++ p)%string);
     bcrypt.hash_nonempty :=
       fun p r s (H : String "$" (s ++ p)%string = EmptyString) =>
         eq_ind (String "$" (s ++ p)%string)
                (fun x => match x with EmptyString => False | String _ _ => True end)
                I EmptyString H |}.

(** A stand-in for the token encoding: the secret, then the subject. *)
Definition toy_jwt : jwt.Lib :=
  {| jwt.encode := fun p secret => (secret ++ "." ++ oidToString (jwt.id p))%string |}.

Definition env0 : Env := mkEnv 7200000 carol_id "salt" "secret".

Definition alice : UserSchema.t :=
  UserSchema.mk alice_id "alice" "alice@example.org" "$saltwonder" "" [] 1000 1000.
Definition bob : UserSchema.t :=
  UserSchema.mk bob_id "bob" "bob@example.org" "$saltbuilder" "/uploads/bob.png"
                [alice_id] 2000 3000.

Definition post1 : PostSchema.t :=
  PostSchema.mk post1_id alice_id "hello" "" [alice_id; bob_id] [] Private 4000 4000.
Definition post2 : PostSchema.t :=
  PostSchema.mk post2_id bob_id "world" "" [] [] Friends 5000 5000.

Definition store0 : Store := mkStore [alice; bob] [post1; post2].
End Fixture.

Module Samples.
Definition dora_id : ObjectId :=
  Fixture.oid "dddddddddddddddddddddddd" eq_refl.

Definition env1 : Env := mkEnv 8000000 dora_id "salt" "secret".

Definition day : list (Env * Request) :=
  [ (Fixture.env0, POST_signup "carol" "carol@example.org" "pw");
    (env1, POST_posts "cccccccccccccccccccccccc" "  first post  " None None);
    (env1, POST_post_like "aaaaaaaaaaaaaaaaaaaaaaaa" "dddddddddddddddddddddddd");
    (env1, POST_add_friend "cccccccccccccccccccccccc" "aaaaaaaaaaaaaaaaaaaaaaaa");
    (env1, DELETE_posts "111111111111111111111111" "aaaaaaaaaaaaaaaaaaaaaaaa") ].
End Samples.

(** * Facts about identifiers *)

Lemma canonical_irrelevant (s : string) (H1 H2 : canonical s = true) : H1 = H2.
Proof. apply UIP_dec. apply Bool.bool_dec. Qed.

Lemma oid_ext (a b : ObjectId) : oidToString a = oidToString b -> a = b.
Proof.
  destruct a as [sa Ha], b as [sb Hb]. simpl. intros ->.
  f_equal. apply canonical_irrelevant.
Qed.

Lemma oid_eqb_eq (a b : ObjectId) : oid_eqb a b = true <-> a = b.
Proof.
  unfold oid_eqb. rewrite String.eqb_eq. split.
  - apply oid_ext.
  - now intros ->.
Qed.

Lemma oid_eqb_refl (a : ObjectId) : oid_eqb a a = true.
Proof. now apply oid_eqb_eq. Qed.

Lemma oid_eqb_neq (a b : ObjectId) : oid_eqb a b = false <-> a <> b.
Proof.
  split.
  - intros H E. apply oid_eqb_eq in E. congruence.
  - intros H. destruct (oid_eqb a b) eqn:E; [|reflexivity].
    apply oid_eqb_eq in E. contradiction.
Qed.

Lemma to_lower_hex_fixed (c : ascii) : is_lower_hex c = true -> to_lower_hex c = c.
Proof.
  unfold is_lower_hex, to_lower_hex, in_range.
  intros H. destruct (Nat.leb 65 (nat_of_ascii c) && Nat.leb (nat_of_ascii c) 70) eqn:E;
    [|reflexivity].
  apply andb_true_iff in E. destruct E as [E1 E2].
  apply Nat.leb_le in E1, E2.
  apply orb_true_iff in H. destruct H as [H|H];
    apply andb_true_iff in H; destruct H as [H1 H2];
    apply Nat.leb_le in H1, H2; lia.
Qed.

Lemma string_map_lower_fixed (s : string) :
  string_forall is_lower_hex s = true -> string_map to_lower_hex s = s.
Proof.
  induction s as [|c s IH]; simpl; [reflexivity|].
  intros H. apply andb_true_iff in H. destruct H as [Hc Hs].
  now rewrite (to_lower_hex_fixed c Hc), (IH Hs).
Qed.

(** The driver reads back what it prints. *)
Lemma cast_toString (o : ObjectId) : castObjectId (oidToString o) = Some o.
Proof.
  destruct o as [s H]. unfold castObjectId, oidToString. simpl.
  assert (E : string_map to_lower_hex s = s).
  { apply string_map_lower_fixed. unfold canonical in H.
    apply andb_true_iff in H. tauto. }
  rewrite E. destruct (canonical_dec s) as [H'|H'].
  - now rewrite (canonical_irrelevant s H' H).
  - congruence.
Qed.

Lemma includes_In (arr : list ObjectId) (o : ObjectId) :
  MongooseArray.includes arr (oidToString o) = true <-> In o arr.
Proof.
  unfold MongooseArray.includes. rewrite existsb_exists. split.
  - intros [x [Hx E]]. apply String.eqb_eq in E. apply oid_ext in E. now subst.
  - intros H. exists o. split; [assumption|apply String.eqb_refl].
Qed.

Lemma includes_not_In (arr : list ObjectId) (o : ObjectId) :
  MongooseArray.includes arr (oidToString o) = false <-> ~ In o arr.
Proof.
  rewrite <- includes_In. destruct (MongooseArray.includes _ _); split; congruence.
Qed.

(** * Facts about collections *)

Section CollectionFacts.
Variable A : Type.
Variable key : A -> ObjectId.

Lemma lookup_Some (o : ObjectId) (l : list A) (a : A) :
  lookup key o l = Some a -> In a l /\ key a = o.
Proof.
  unfold lookup. intros H. apply find_some in H.
  destruct H as [H1 H2]. apply oid_eqb_eq in H2. now split.
Qed.

(** The document [lookup] finds is the first with that key. *)
Lemma lookup_split (o : ObjectId) (l : list A) (a : A) :
  lookup key o l = Some a ->
  exists before after,
    l = before ++ a :: after /\ (forall b, In b before -> key b <> o).
Proof.
  induction l as [|x l IH]; simpl; [discriminate|].
  destruct (oid_eqb (key x) o) eqn:E.
  - intros [= ->]. exists [], l. split; [reflexivity|]. intros b [].
  - intros H. destruct (IH H) as (l1 & l2 & -> & Hl1).
    exists (x :: l1), l2. split; [reflexivity|].
    intros b [<-|Hb]; [now apply oid_eqb_neq|now apply Hl1].
Qed.

Lemma deleteOne_split (o : ObjectId) (before after : list A) (a : A) :
  key a = o -> (forall b, In b before -> key b <> o) ->
  deleteOne key o (before ++ a :: after) = before ++ after.
Proof.
  intros Ha. induction before as [|x l IH]; simpl; intros Hb.
  - now rewrite Ha, oid_eqb_refl.
  - assert (E : oid_eqb (key x) o = false) by (apply oid_eqb_neq, Hb; now left).
    rewrite E. f_equal. apply IH. intros b Hb'. apply Hb. now right.
Qed.

Lemma updateOne_split (o : ObjectId) (f : A -> A) (before after : list A) (a : A) :
  key a = o -> (forall b, In b before -> key b <> o) ->
  updateOne key o f (before ++ a :: after) = before ++ f a :: after.
Proof.
  intros Ha. induction before as [|x l IH]; simpl; intros Hb.
  - now rewrite Ha, oid_eqb_refl.
  - assert (E : oid_eqb (key x) o = false) by (apply oid_eqb_neq, Hb; now left).
    rewrite E. f_equal. apply IH. intros b Hb'. apply Hb. now right.
Qed.

Lemma lookup_middle (o : ObjectId) (before after : list A) (a : A) :
  key a = o -> (forall b, In b before -> key b <> o) ->
  lookup key o (before ++ a :: after) = Some a.
Proof.
  intros Ha. induction before as [|x l IH]; simpl; intros Hb.
  - now rewrite Ha, oid_eqb_refl.
  - assert (E : oid_eqb (key x) o = false) by (apply oid_eqb_neq, Hb; now left).
    rewrite E. apply IH. intros b Hb'. apply Hb. now right.
Qed.

(** A write to one document is not seen through another key. *)
Lemma lookup_updateOne_other (o o' : ObjectId) (a' : A) (l : list A) :
  o' <> o -> key a' = o ->
  lookup key o' (updateOne key o (fun _ => a') l) = lookup key o' l.
Proof.
  intros Hne Ha. induction l as [|x l IH]; simpl; [reflexivity|].
  destruct (oid_eqb (key x) o) eqn:E; simpl.
  - apply oid_eqb_eq in E. rewrite Ha, E.
    now replace (oid_eqb o o') with false by (symmetry; now apply oid_eqb_neq).
  - now rewrite IH.
Qed.
End CollectionFacts.

(** * The routes, one by one *)

Section RouteFacts.
Context {B : bcrypt.Lib} {J : jwt.Lib}.
Variable env : Env.

Lemma cast_run (raw : string) (o : ObjectId) (s : Store) :
  castObjectId raw = Some o -> cast raw s = (Return o, s).
Proof. unfold cast. now intros ->. Qed.

Lemma cast_fail (raw : string) (s : Store) :
  castObjectId raw = None -> cast raw s = (Throw CastError, s).
Proof. unfold cast. now intros ->. Qed.

Lemma Post_findById_run (raw : string) (o : ObjectId) (s : Store) :
  castObjectId raw = Some o ->
  Post.findById raw s =
    (Return (option_map Document.loaded (lookup PostSchema._id o (posts s))), s).
Proof. intros H. unfold Post.findById, bind. now rewrite (cast_run _ s H). Qed.

Lemma User_findById_run (raw : string) (o : ObjectId) (s : Store) :
  castObjectId raw = Some o ->
  User.findById raw s =
    (Return (option_map Document.loaded (lookup UserSchema._id o (users s))), s).
Proof. intros H. unfold User.findById, bind. now rewrite (cast_run _ s H). Qed.
End RouteFacts.

(** ** DELETE /posts/:postId *)

(** The delete route for a [postId] that names the identifier [o]. *)
Lemma delete_posts_run (s : Store) (postId userId : string) (o : ObjectId) :
  castObjectId postId = Some o ->
  let r := route (delete_posts postId userId) s in
  match lookup PostSchema._id o (posts s) with
  | None => r = (error 404 "Post not found", s)
  | Some p =>
      (userId <> oidToString (PostSchema.userId p) ->
       r = (error 403 "You can only delete your own posts", s)) /\
      (userId = oidToString (PostSchema.userId p) ->
       fst r = json (JObj [("message", JStr "Post deleted successfully");
                           ("postId", JStr postId)]) /\
       users (snd r) = users s /\
       exists before after,
         posts s = before ++ p :: after /\
         posts (snd r) = before ++ after /\
         forall q, In q before -> PostSchema._id q <> o)
  end.
Proof.
  intros Hcast r. subst r. unfold route, delete_posts, bind.
  rewrite (Post_findById_run _ s Hcast).
  destruct (lookup PostSchema._id o (posts s)) as [p|] eqn:Hp; simpl; [|reflexivity].
  split.
  - intros Hne. apply String.eqb_neq in Hne. rewrite String.eqb_sym in Hne.
    now rewrite Hne.
  - intros ->. rewrite String.eqb_refl. simpl.
    unfold Post.findByIdAndDelete, bind. rewrite (cast_run _ s Hcast). simpl.
    repeat split.
    destruct (lookup_split _ _ _ Hp) as (l1 & l2 & E & Hl1).
    exists l1, l2. repeat split; try assumption.
    rewrite E. apply deleteOne_split; [|assumption].
    now destruct (lookup_Some _ _ _ Hp).
Qed.

(** C1.  [deletePost(P.id, U)]: when no post has the identifier the answer
    is 404 and nothing changes; when the post found has an owner whose
    printed identifier differs from [U] the answer is 403 and the store, the
    post included, is what it was; and when [U] is the owner the answer is
    200, exactly that post is gone and every other document stays. *)
Theorem delete_posts_spec (s : Store) (o : ObjectId) (userId : string) :
  let r := route (delete_posts (oidToString o) userId) s in
  match lookup PostSchema._id o (posts s) with
  | None => r = (error 404 "Post not found", s)
  | Some p =>
      (userId <> oidToString (PostSchema.userId p) ->
       r = (error 403 "You can only delete your own posts", s) /\
       lookup PostSchema._id o (posts (snd r)) = Some p) /\
      (userId = oidToString (PostSchema.userId p) ->
       fst r = json (JObj [("message", JStr "Post deleted successfully");
                           ("postId", JStr (oidToString o))]) /\
       users (snd r) = users s /\
       exists before after,
         posts s = before ++ p :: after /\
         posts (snd r) = before ++ after /\
         forall q, In q before -> PostSchema._id q <> o)
  end.
Proof.
  intros r. subst r.
  pose proof (delete_posts_run s (oidToString o) userId (cast_toString o)) as H.
  cbv zeta in H.
  destruct (lookup PostSchema._id o (posts s)) as [p|] eqn:Hp; [|exact H].
  destruct H as [H403 H200]. split; [|exact H200].
  intros Hne. rewrite (H403 Hne). now split.
Qed.

Lemma delete_posts_spec_witness :
  route (delete_posts "111111111111111111111111" "bbbbbbbbbbbbbbbbbbbbbbbb")
        Fixture.store0
  = (error 403 "You can only delete your own posts", Fixture.store0).
Proof.
  pose proof (delete_posts_spec Fixture.store0 Fixture.post1_id
                "bbbbbbbbbbbbbbbbbbbbbbbb") as H.
  simpl in H. destruct H as [H _]. apply H. discriminate.
Defined.

(** ** POST /post/like *)

Section PullFacts.
Import MongooseArray.

Lemma pull_In (arr : list ObjectId) (u x : ObjectId) :
  In x (pull arr u) <-> In x arr /\ x <> u.
Proof.
  unfold pull. rewrite filter_In, negb_true_iff, oid_eqb_neq. tauto.
Qed.

Lemma pull_absent (arr : list ObjectId) (u : ObjectId) :
  ~ In u arr -> pull arr u = arr.
Proof.
  unfold pull. induction arr as [|x l IH]; simpl; [reflexivity|].
  intros H. destruct (oid_eqb x u) eqn:E; simpl.
  - apply oid_eqb_eq in E. subst. exfalso. apply H. now left.
  - f_equal. apply IH. intros Hin. apply H. now right.
Qed.

Lemma pull_app (a b : list ObjectId) (u : ObjectId) :
  pull (a ++ b) u = pull a u ++ pull b u.
Proof. unfold pull. apply filter_app. Qed.

Lemma pull_self (u : ObjectId) : pull [u] u = [].
Proof. unfold pull. simpl. now rewrite oid_eqb_refl. Qed.
End PullFacts.

Lemma lookup_updateOne_same (A : Type) (key : A -> ObjectId) (o : ObjectId)
      (a a' : A) (l : list A) :
  lookup key o l = Some a ->
  lookup key o (updateOne key o (fun _ => a') l) = Some a' \/ key a' <> o.
Proof.
  intros H. destruct (oid_eqb (key a') o) eqn:E.
  - left. apply oid_eqb_eq in E.
    destruct (lookup_split _ _ _ H) as (l1 & l2 & -> & Hl1).
    destruct (lookup_Some _ _ _ H) as [_ Ha].
    rewrite (updateOne_split key (fun _ => a') l1 l2 a Ha Hl1).
    now apply lookup_middle.
  - right. now apply oid_eqb_neq.
Qed.

(** One call of the like route on an existing post, for a user identifier in
    its printed form: the answer is 200, the users are untouched, and the
    post's like-list loses every occurrence of the user when it had one and
    gains the user at its end otherwise. *)
Lemma post_post_like_step (env : Env) (s : Store) (postId : string)
      (o u : ObjectId) (p : PostSchema.t) :
  castObjectId postId = Some o ->
  lookup PostSchema._id o (posts s) = Some p ->
  let r := route (post_post_like env (oidToString u) postId) s in
  status (fst r) = 200 /\
  users (snd r) = users s /\
  exists p',
    lookup PostSchema._id o (posts (snd r)) = Some p' /\
    PostSchema.likes p' =
      (if MongooseArray.includes (PostSchema.likes p) (oidToString u)
       then MongooseArray.pull (PostSchema.likes p) u
       else PostSchema.likes p ++ [u]).
Proof.
  intros Hcast Hp r. subst r.
  destruct (lookup_Some _ _ _ Hp) as [_ Hkey].
  unfold route, post_post_like, bind.
  rewrite (Post_findById_run _ s Hcast), Hp. simpl.
  destruct (MongooseArray.includes (PostSchema.likes p) (oidToString u)) eqn:Hinc; simpl.
  - unfold Post.findByIdAndUpdate_pull_likes, bind.
    rewrite (cast_run _ s Hcast), (cast_run _ s (cast_toString u)). simpl.
    rewrite Hp. simpl. repeat split.
    eexists. split.
    + destruct (@lookup_updateOne_same _ PostSchema._id o p
                  (Post.set_updatedAt (now env)
                     (Post.set_likes (MongooseArray.pull (PostSchema.likes p) u) p))
                  _ Hp) as [E|E]; [exact E|].
      simpl in E. contradiction.
    + reflexivity.
  - unfold MongooseArray.push, bind.
    rewrite (cast_run _ s (cast_toString u)). simpl. repeat split.
    eexists. split.
    + rewrite Hkey.
      destruct (@lookup_updateOne_same _ PostSchema._id o p
                  (Post.set_updatedAt (now env)
                     (Post.set_likes (PostSchema.likes p ++ [u]) p))
                  _ Hp) as [E|E]; [exact E|].
      simpl in E. contradiction.
    + reflexivity.
Qed.

(** C2 (as amended).  Two calls of [toggleLike] with the same user on an
    existing post restore the like-list as a set of members.  When the user
    was absent the first call appends it and the second removes it, and the
    list is exactly the original one.  When the user was present the first
    call removes every occurrence and the second appends the user at the
    end of the list. *)
Theorem toggle_like_twice (env1 env2 : Env) (s : Store) (postId : string)
        (o u : ObjectId) (p : PostSchema.t) :
  castObjectId postId = Some o ->
  lookup PostSchema._id o (posts s) = Some p ->
  let like := fun e => route (post_post_like e (oidToString u) postId) in
  let s1 := snd (like env1 s) in
  let s2 := snd (like env2 s1) in
  exists l1 l2,
    likes_of o s1 = Some l1 /\
    likes_of o s2 = Some l2 /\
    (~ In u (PostSchema.likes p) ->
     l1 = PostSchema.likes p ++ [u] /\ l2 = PostSchema.likes p) /\
    (In u (PostSchema.likes p) ->
     l1 = MongooseArray.pull (PostSchema.likes p) u /\
     l2 = MongooseArray.pull (PostSchema.likes p) u ++ [u]) /\
    (forall x, In x l2 <-> In x (PostSchema.likes p)).
Proof.
  intros Hcast Hp like s1 s2.
  destruct (post_post_like_step env1 s postId u Hcast Hp) as (_ & _ & p1 & Hp1 & Hl1).
  fold (like env1 s) in Hp1. fold s1 in Hp1.
  destruct (post_post_like_step env2 s1 postId u Hcast Hp1) as (_ & _ & p2 & Hp2 & Hl2).
  fold (like env2 s1) in Hp2. fold s2 in Hp2.
  exists (PostSchema.likes p1), (PostSchema.likes p2).
  unfold likes_of. rewrite Hp1, Hp2. simpl.
  destruct (MongooseArray.includes (PostSchema.likes p) (oidToString u)) eqn:Hinc.
  - apply includes_In in Hinc.
    assert (Hout : MongooseArray.includes (PostSchema.likes p1) (oidToString u) = false).
    { apply includes_not_In. rewrite Hl1, pull_In. tauto. }
    rewrite Hout in Hl2. rewrite Hl1 in Hl2.
    repeat split; try tauto.
    + rewrite Hl2, in_app_iff, pull_In. simpl. intros [[H _]|[<-|[]]]; assumption.
    + intros Hx. rewrite Hl2, in_app_iff, pull_In. simpl.
      destruct (oid_eqb x u) eqn:E.
      * apply oid_eqb_eq in E. right. left. now symmetry.
      * apply oid_eqb_neq in E. left. now split.
  - apply includes_not_In in Hinc.
    assert (Hin : MongooseArray.includes (PostSchema.likes p1) (oidToString u) = true).
    { apply includes_In. rewrite Hl1, in_app_iff. right. now left. }
    rewrite Hin in Hl2. rewrite Hl1 in Hl2.
    rewrite pull_app, pull_self, app_nil_r, (pull_absent _ _ Hinc) in Hl2.
    repeat split; try tauto; now rewrite Hl2.
Qed.

Lemma toggle_like_twice_witness :
  let like := route (post_post_like Fixture.env0 "aaaaaaaaaaaaaaaaaaaaaaaa"
                                    "222222222222222222222222") in
  likes_of Fixture.post2_id (snd (like Fixture.store0)) = Some [Fixture.alice_id] /\
  likes_of Fixture.post2_id (snd (like (snd (like Fixture.store0)))) = Some [].
Proof.
  destruct (toggle_like_twice Fixture.env0 Fixture.env0 Fixture.store0
              "222222222222222222222222" (o := Fixture.post2_id) Fixture.alice_id
              (p := Fixture.post2) eq_refl eq_refl)
    as (l1 & l2 & H1 & H2 & Habs & _).
  destruct Habs as [E1 E2]; [simpl; tauto|].
  rewrite E1 in H1. rewrite E2 in H2. split; [exact H1|exact H2].
Defined.

(** C2 as stated fails when the user is in the like-list but not at its
    end: Alice, first of the two who like the post, toggles twice and ends up
    last. *)
Lemma toggle_like_twice_counterexample :
  let like := route (post_post_like Fixture.env0 "aaaaaaaaaaaaaaaaaaaaaaaa"
                                    "111111111111111111111111") in
  likes_of Fixture.post1_id Fixture.store0
    = Some [Fixture.alice_id; Fixture.bob_id] /\
  likes_of Fixture.post1_id (snd (like (snd (like Fixture.store0))))
    = Some [Fixture.bob_id; Fixture.alice_id] /\
  likes_of Fixture.post1_id (snd (like (snd (like Fixture.store0))))
    <> likes_of Fixture.post1_id Fixture.store0.
Proof.
  repeat split; try reflexivity.
  intros H. apply (f_equal (option_map (map oidToString))) in H.
  vm_compute in H. discriminate H.
Qed.

(** ** POST /signup *)

Lemma find_field_None (A : Type) (get_field : A -> string) (v : string) (l : list A) :
  find (fun a => String.eqb (get_field a) v) l = None <->
  (forall a, In a l -> get_field a <> v).
Proof.
  split.
  - intros H a Ha E. apply (find_none _ _ H) in Ha.
    apply String.eqb_neq in Ha. contradiction.
  - intros H. induction l as [|x l IH]; simpl; [reflexivity|].
    destruct (String.eqb (get_field x) v) eqn:E.
    + apply String.eqb_eq in E. exfalso. apply (H x); [now left|assumption].
    + apply IH. intros a Ha. apply H. now right.
Qed.

Lemma find_field_Some (A : Type) (get_field : A -> string) (v : string) (l : list A) :
  (exists a, In a l /\ get_field a = v) ->
  exists a, find (fun a => String.eqb (get_field a) v) l = Some a.
Proof.
  intros [a [Ha E]].
  destruct (find (fun a => String.eqb (get_field a) v) l) as [x|] eqn:F.
  - now exists x.
  - exfalso. rewrite find_field_None in F. exact (F a Ha E).
Qed.

Lemma findOne_email_run (e : string) (s : Store) :
  User.findOne_email e s =
    (Return (option_map Document.loaded
               (find (fun u => String.eqb (UserSchema.email u) e) (users s))), s).
Proof. reflexivity. Qed.

Lemma findOne_username_run (n : string) (s : Store) :
  User.findOne_username n s =
    (Return (option_map Document.loaded
               (find (fun u => String.eqb (UserSchema.username u) n) (users s))), s).
Proof. reflexivity. Qed.

Lemma nonempty_eqb (v : string) : v <> "" -> String.eqb v "" = false.
Proof. intros H. now apply String.eqb_neq. Qed.

(** C3 (as amended).  [registerUser]: an email already stored gives 400
    whatever the username; a username already stored gives 400 whatever the
    email; in both cases nothing is stored.  When neither is taken and both
    are non-empty, the new user is appended with the bcrypt hash of the
    password at cost 10 as its password, and the answer is 201 with a
    message and no token.  When neither is taken and the username or the
    email is empty, the schema refuses the document: nothing is stored and
    the answer is 500. *)
Theorem post_signup_spec {B : bcrypt.Lib} (env : Env) (s : Store)
        (username email password : string) :
  let r := route (post_signup env username email password) s in
  let email_taken := exists u, In u (users s) /\ UserSchema.email u = email in
  let username_taken := exists u, In u (users s) /\ UserSchema.username u = username in
  (email_taken -> r = (error 400 "Email already registered", s)) /\
  (username_taken -> status (fst r) = 400 /\ snd r = s) /\
  (~ email_taken -> username_taken -> r = (error 400 "Username already taken", s)) /\
  (~ email_taken -> ~ username_taken ->
   (username = "" \/ email = "" -> r = (internal_server_error, s)) /\
   (username <> "" -> email <> "" ->
    (forall u, In u (users s) -> UserSchema._id u <> newId env) ->
    r = (mkResponse 201 (JObj [("message", JStr "User registered successfully")]),
         mkStore (users s ++
                  [UserSchema.mk (newId env) username email
                                 (bcrypt.hash password 10 (salt env))
                                 "" [] (now env) (now env)])
                 (posts s)) /\
    has_field "token" (body (fst r)) = false)).
Proof.
  intros r email_taken username_taken.
  assert (Hemail : email_taken -> r = (error 400 "Email already registered", s)).
  { intros H. apply find_field_Some in H. destruct H as [u Hu].
    subst r. unfold route, post_signup, bind.
    now rewrite findOne_email_run, Hu. }
  assert (Huser : ~ email_taken -> username_taken ->
                  r = (error 400 "Username already taken", s)).
  { intros Hne H. apply find_field_Some in H. destruct H as [u Hu].
    assert (F : find (fun u => String.eqb (UserSchema.email u) email) (users s) = None).
    { apply find_field_None. intros a Ha E. apply Hne. now exists a. }
    subst r. unfold route, post_signup, bind.
    rewrite findOne_email_run, F. cbn [option_map].
    now rewrite findOne_username_run, Hu. }
  split; [exact Hemail|]. split; [|split; [exact Huser|]].
  - intros H.
    destruct (find (fun u => String.eqb (UserSchema.email u) email) (users s))
      as [u|] eqn:F.
    + rewrite Hemail; [now split|].
      apply find_some in F. destruct F as [F1 F2]. apply String.eqb_eq in F2.
      now exists u.
    + rewrite Huser; [now split| |assumption].
      rewrite find_field_None in F. intros [u [Hu E]]. exact (F u Hu E).
  - intros Hne Hnu.
    assert (F : find (fun u => String.eqb (UserSchema.email u) email) (users s) = None).
    { apply find_field_None. intros a Ha E. apply Hne. now exists a. }
    assert (G : find (fun u => String.eqb (UserSchema.username u) username) (users s)
                = None).
    { apply find_field_None. intros a Ha E. apply Hnu. now exists a. }
    subst r. unfold route, post_signup, bind.
    rewrite findOne_email_run, F. cbn [option_map].
    rewrite findOne_username_run, G. cbn [option_map].
    unfold User.save, UserSchema.validate, bind. simpl. split.
    + intros [-> | ->]; simpl; [reflexivity|].
      now rewrite andb_false_r.
    + intros Hu He Hfresh.
      rewrite (nonempty_eqb Hu), (nonempty_eqb He),
        (nonempty_eqb (bcrypt.hash_nonempty password 10 (salt env))).
      simpl.
      assert (C : existsb
                    (User.clashes
                       (UserSchema.mk (newId env) username email
                          (bcrypt.hash password 10 (salt env)) "" [] 0 0))
                    (users s) = false).
      { apply not_true_is_false. intros H. apply existsb_exists in H.
        destruct H as [v [Hv Hc]]. unfold User.clashes in Hc. simpl in Hc.
        apply orb_true_iff in Hc. destruct Hc as [Hc|Hc];
          [apply orb_true_iff in Hc; destruct Hc as [Hc|Hc]|].
        - apply oid_eqb_eq in Hc. exact (Hfresh v Hv Hc).
        - apply String.eqb_eq in Hc. apply Hnu. now exists v.
        - apply String.eqb_eq in Hc. apply Hne. now exists v. }
      rewrite C. simpl. now split.
Qed.

Lemma post_signup_spec_witness :
  status (fst (route (post_signup (B := Fixture.toy_bcrypt) Fixture.env0
                                  "carol" "carol@example.org" "pw")
                     Fixture.store0)) = 201.
Proof.
  destruct (post_signup_spec (B := Fixture.toy_bcrypt) Fixture.env0 Fixture.store0
              "carol" "carol@example.org" "pw") as (_ & _ & _ & H).
  destruct H as [_ H].
  - intros (u & Hu & E). simpl in Hu. destruct Hu as [<-|[<-|[]]]; discriminate E.
  - intros (u & Hu & E). simpl in Hu. destruct Hu as [<-|[<-|[]]]; discriminate E.
  - destruct H as [H _]; try discriminate.
    + intros u Hu E. apply (f_equal oidToString) in E. simpl in Hu.
      destruct Hu as [<-|[<-|[]]]; discriminate E.
    + rewrite H. reflexivity.
Defined.

(** C3 as stated fails on an empty username: neither the email nor the
    username is taken, yet no user is stored and the answer is 500. *)
Lemma post_signup_counterexample :
  let r := route (post_signup (B := Fixture.toy_bcrypt) Fixture.env0
                              "" "dora@example.org" "pw") Fixture.store0 in
  ~ (exists u, In u (users Fixture.store0) /\ UserSchema.email u = "dora@example.org") /\
  ~ (exists u, In u (users Fixture.store0) /\ UserSchema.username u = "") /\
  status (fst r) = 500 /\ snd r = Fixture.store0.
Proof.
  repeat split; try reflexivity;
    intros (u & Hu & E); simpl in Hu; destruct Hu as [<-|[<-|[]]]; discriminate E.
Qed.

(** ** POST /login *)

(** C4.  [login(email, password)]: when no stored user has the email the
    answer is 400 "User not found"; when the user found has a hash that the
    password does not verify against, it is 400 "Invalid credentials";
    otherwise it is 200 with a token that signs that user's identifier,
    issued now and expiring 3600 seconds later, and with the whole user
    record, whose [password] field is the stored hash.  The store is never
    written. *)
Theorem post_login_spec {B : bcrypt.Lib} {J : jwt.Lib} (env : Env) (s : Store)
        (email password : string) :
  let r := route (post_login env email password) s in
  ((forall u, In u (users s) -> UserSchema.email u <> email) ->
   r = (error 400 "User not found", s)) /\
  (forall u,
     find (fun u => String.eqb (UserSchema.email u) email) (users s) = Some u ->
     In u (users s) /\ UserSchema.email u = email /\
     (bcrypt.compare password (UserSchema.password u) = false ->
      r = (error 400 "Invalid credentials", s)) /\
     (bcrypt.compare password (UserSchema.password u) = true ->
      exists payload,
        r = (json (JObj [("token", JStr (jwt.encode payload (JWT_SECRET env)));
                         ("user", JObj (UserSchema.toJSON u))]), s) /\
        jwt.id payload = UserSchema._id u /\
        jwt.iat payload = (now env / 1000)%Z /\
        (jwt.exp payload - jwt.iat payload = 3600)%Z /\
        field "password" (UserSchema.toJSON u) = Some (JStr (UserSchema.password u)))).
Proof.
  intros r. subst r. unfold route, post_login, bind. rewrite findOne_email_run.
  split.
  - intros H. apply find_field_None in H. now rewrite H.
  - intros u Hu. rewrite Hu. cbn [option_map Document.value Document.loaded].
    pose proof (find_some _ _ Hu) as [Hin He]. apply String.eqb_eq in He.
    repeat split; try assumption.
    + intros ->. reflexivity.
    + intros ->. simpl.
      exists (jwt.mkPayload (UserSchema._id u) (now env / 1000)
                            (now env / 1000 + 3600)).
      repeat split. simpl. lia.
Qed.

Lemma post_login_spec_witness :
  status (fst (route (post_login (B := Fixture.toy_bcrypt) (J := Fixture.toy_jwt)
                                 Fixture.env0 "alice@example.org" "wonder")
                     Fixture.store0)) = 200.
Proof.
  destruct (post_login_spec (B := Fixture.toy_bcrypt) (J := Fixture.toy_jwt)
              Fixture.env0 Fixture.store0 "alice@example.org" "wonder") as [_ H].
  destruct (H Fixture.alice eq_refl) as (_ & _ & _ & Hok).
  destruct (Hok eq_refl) as (payload & E & _). rewrite E. reflexivity.
Defined.

(** ** POST /add-friend *)

Lemma occurrences_app (o : ObjectId) (a b : list ObjectId) :
  occurrences o (a ++ b) = occurrences o a + occurrences o b.
Proof. unfold occurrences. now rewrite filter_app, length_app. Qed.

Lemma occurrences_absent (o : ObjectId) (l : list ObjectId) :
  ~ In o l <-> occurrences o l = 0.
Proof.
  unfold occurrences. induction l as [|x l IH]; simpl; [tauto|].
  destruct (oid_eqb o x) eqn:E; simpl.
  - apply oid_eqb_eq in E. subst. split; [intros H; exfalso; apply H; now left|discriminate].
  - apply oid_eqb_neq in E. rewrite <- IH. split.
    + intros H Hin. apply H. now right.
    + intros H [Hx|Hin]; [now apply E|now apply H].
Qed.

(** One call of the add-friend route for an existing user and a friend
    identifier in its printed form: the answer is 200; when the friend is
    already listed nothing is written; otherwise the user's document alone is
    rewritten, with the friend at the end of its list. *)
Lemma post_add_friend_step (env : Env) (s : Store) (userId : string)
      (o f : ObjectId) (usr : UserSchema.t) :
  castObjectId userId = Some o ->
  lookup UserSchema._id o (users s) = Some usr ->
  let r := route (post_add_friend env userId (oidToString f)) s in
  fst r = json (JObj [("success", JBool true); ("message", JStr "Friend Added")]) /\
  (In f (UserSchema.friends usr) -> snd r = s) /\
  (~ In f (UserSchema.friends usr) ->
   snd r =
     User.set_users
       (updateOne UserSchema._id o
          (fun _ => User.set_updatedAt (now env)
                      (User.set_friends (UserSchema.friends usr ++ [f]) usr))
          (users s)) s).
Proof.
  intros Hcast Hu r. subst r.
  destruct (lookup_Some _ _ _ Hu) as [_ Hkey].
  unfold route, post_add_friend, bind.
  rewrite (User_findById_run _ s Hcast), Hu. simpl.
  destruct (MongooseArray.includes (UserSchema.friends usr) (oidToString f)) eqn:Hinc;
    simpl.
  - apply includes_In in Hinc. repeat split; tauto.
  - apply includes_not_In in Hinc.
    unfold MongooseArray.push, bind.
    rewrite (cast_run _ s (cast_toString f)). simpl. rewrite Hkey.
    repeat split; tauto.
Qed.

(** C5 (as amended).  [addFriend(userId, friendId)] on an existing user:
    the friend is appended only when absent; a second call with the same
    friend writes nothing, so the list after two calls is the list after
    one; when the friend occurred at most once before, it occurs exactly
    once afterwards; and every user other than [userId], the friend included
    when it is another user, keeps its record. *)
Theorem post_add_friend_twice (env1 env2 : Env) (s : Store) (userId : string)
        (o f : ObjectId) (usr : UserSchema.t) :
  castObjectId userId = Some o ->
  lookup UserSchema._id o (users s) = Some usr ->
  let add := fun e => route (post_add_friend e userId (oidToString f)) in
  let s1 := snd (add env1 s) in
  let s2 := snd (add env2 s1) in
  status (fst (add env1 s)) = 200 /\
  status (fst (add env2 s1)) = 200 /\
  friends_of o s1 =
    Some (if MongooseArray.includes (UserSchema.friends usr) (oidToString f)
          then UserSchema.friends usr
          else UserSchema.friends usr ++ [f]) /\
  s2 = s1 /\
  (occurrences f (UserSchema.friends usr) <= 1 ->
   exists l, friends_of o s2 = Some l /\ occurrences f l = 1) /\
  (forall o', o' <> o ->
     lookup UserSchema._id o' (users s2) = lookup UserSchema._id o' (users s)) /\
  (f <> o -> friends_of f s2 = friends_of f s) /\
  posts s2 = posts s.
Proof.
  intros Hcast Hu add s1 s2.
  destruct (lookup_Some _ _ _ Hu) as [_ Hkey].
  destruct (post_add_friend_step env1 s userId f Hcast Hu) as (R1 & Hin1 & Hout1).
  fold (add env1 s) in R1, Hin1, Hout1. fold s1 in Hin1, Hout1.
  set (usr' := User.set_updatedAt (now env1)
                 (User.set_friends (UserSchema.friends usr ++ [f]) usr)) in *.
  assert (Hfriends : friends_of o s1 =
            Some (if MongooseArray.includes (UserSchema.friends usr) (oidToString f)
                  then UserSchema.friends usr
                  else UserSchema.friends usr ++ [f])).
  { unfold friends_of.
    destruct (MongooseArray.includes (UserSchema.friends usr) (oidToString f)) eqn:Hinc.
    - apply includes_In in Hinc. now rewrite (Hin1 Hinc), Hu.
    - apply includes_not_In in Hinc. rewrite (Hout1 Hinc). simpl.
      destruct (@lookup_updateOne_same _ UserSchema._id o usr usr' _ Hu) as [E|E];
        [now rewrite E|]. now elim E. }
  assert (Hu1 : exists usr1, lookup UserSchema._id o (users s1) = Some usr1 /\
                             In f (UserSchema.friends usr1)).
  { unfold friends_of in Hfriends.
    destruct (lookup UserSchema._id o (users s1)) as [usr1|]; [|discriminate].
    exists usr1. split; [reflexivity|]. simpl in Hfriends.
    injection Hfriends as ->.
    destruct (MongooseArray.includes (UserSchema.friends usr) (oidToString f)) eqn:Hinc.
    - now apply includes_In.
    - apply in_app_iff. right. now left. }
  destruct Hu1 as (usr1 & Hu1 & Hf1).
  destruct (post_add_friend_step env2 s1 userId f Hcast Hu1) as (R2 & Hin2 & _).
  fold (add env2 s1) in R2, Hin2. fold s2 in Hin2.
  assert (Hs2 : s2 = s1) by exact (Hin2 Hf1).
  assert (Hother : forall o', o' <> o ->
            lookup UserSchema._id o' (users s1) = lookup UserSchema._id o' (users s)).
  { intros o' Hne.
    destruct (MongooseArray.includes (UserSchema.friends usr) (oidToString f)) eqn:Hinc.
    - apply includes_In in Hinc. now rewrite (Hin1 Hinc).
    - apply includes_not_In in Hinc. rewrite (Hout1 Hinc). simpl.
      now apply lookup_updateOne_other. }
  assert (Hposts : posts s1 = posts s).
  { destruct (MongooseArray.includes (UserSchema.friends usr) (oidToString f)) eqn:Hinc.
    - apply includes_In in Hinc. now rewrite (Hin1 Hinc).
    - apply includes_not_In in Hinc. now rewrite (Hout1 Hinc). }
  rewrite R1, R2, Hs2. repeat split; try assumption.
  - intros Hocc. eexists. split; [exact Hfriends|].
    destruct (MongooseArray.includes (UserSchema.friends usr) (oidToString f)) eqn:Hinc.
    + apply includes_In in Hinc.
      destruct (occurrences f (UserSchema.friends usr)) as [|n] eqn:E; [|lia].
      apply occurrences_absent in E. contradiction.
    + apply includes_not_In in Hinc. apply occurrences_absent in Hinc.
      rewrite occurrences_app, Hinc. unfold occurrences. simpl.
      now rewrite oid_eqb_refl.
  - intros Hne. unfold friends_of. now rewrite Hother.
Qed.

Lemma post_add_friend_twice_witness :
  let add := route (post_add_friend Fixture.env0 "aaaaaaaaaaaaaaaaaaaaaaaa"
                                    "bbbbbbbbbbbbbbbbbbbbbbbb") in
  friends_of Fixture.alice_id (snd (add Fixture.store0)) = Some [Fixture.bob_id] /\
  snd (add (snd (add Fixture.store0))) = snd (add Fixture.store0) /\
  friends_of Fixture.bob_id (snd (add (snd (add Fixture.store0))))
    = Some [Fixture.alice_id].
Proof.
  destruct (post_add_friend_twice Fixture.env0 Fixture.env0 Fixture.store0
              "aaaaaaaaaaaaaaaaaaaaaaaa" (o := Fixture.alice_id) Fixture.bob_id
              (usr := Fixture.alice) eq_refl eq_refl)
    as (_ & _ & H1 & H2 & _ & _ & H3 & _).
  split; [exact H1|]. split; [exact H2|].
  refine (eq_trans (H3 _) eq_refl).
  intros E. apply (f_equal oidToString) in E. discriminate E.
Defined.

(** C5 as stated fails when a user befriends itself: the friend's own list
    is the list that grows. *)
Lemma post_add_friend_counterexample :
  let r := route (post_add_friend Fixture.env0 "aaaaaaaaaaaaaaaaaaaaaaaa"
                                  "aaaaaaaaaaaaaaaaaaaaaaaa") Fixture.store0 in
  friends_of Fixture.alice_id Fixture.store0 = Some [] /\
  friends_of Fixture.alice_id (snd r) = Some [Fixture.alice_id] /\
  friends_of Fixture.alice_id (snd r) <> friends_of Fixture.alice_id Fixture.store0.
Proof.
  repeat split; try reflexivity.
  intros H. apply (f_equal (option_map (map oidToString))) in H.
  vm_compute in H. discriminate H.
Qed.

(** ** GET /users *)

(** C6 (as amended).  [listUsers(excludeUserId)]: when [excludeUserId]
    is a well-formed identifier [o], the answer is 200 and lists, in store
    order, exactly the stored users whose identifier is not [o], each as the
    three fields [_id], [username], [profilePicture], and no listed entry
    carries [o]; when it is not well formed the driver's cast throws and the
    answer is 500.  The store is never written. *)
Theorem get_users_spec (s : Store) (userId : string) :
  let r := route (get_users userId) s in
  let card := fun u =>
    JObj [("_id", JId (UserSchema._id u));
          ("username", JStr (UserSchema.username u));
          ("profilePicture", JStr (UserSchema.profilePicture u))] in
  snd r = s /\
  match castObjectId userId with
  | None => fst r = internal_server_error
  | Some o =>
      status (fst r) = 200 /\
      exists listed,
        body (fst r) = JArr (map card listed) /\
        listed = filter (fun u => negb (oid_eqb (UserSchema._id u) o)) (users s) /\
        (forall u, In u listed <-> In u (users s) /\ UserSchema._id u <> o) /\
        (forall j, In j (map card listed) ->
                   field "_id" (fields_of j) <> Some (JId o))
  end.
Proof.
  intros r card. subst r. unfold route, get_users, User.find_ne, bind.
  destruct (castObjectId userId) as [o|] eqn:Hcast.
  - rewrite (cast_run _ s Hcast). simpl.
    split; [reflexivity|]. split; [reflexivity|].
    exists (filter (fun u => negb (oid_eqb (UserSchema._id u) o)) (users s)).
    split; [reflexivity|]. split; [reflexivity|]. split.
    + intros u. rewrite filter_In, negb_true_iff, oid_eqb_neq. tauto.
    + intros j Hj. apply in_map_iff in Hj. destruct Hj as (u & <- & Hu).
      apply filter_In in Hu. destruct Hu as [_ Hu].
      apply negb_true_iff in Hu. apply oid_eqb_neq in Hu.
      simpl. intros [= E]. apply Hu. now apply oid_ext.
  - rewrite (cast_fail _ s Hcast). now split.
Qed.

Lemma get_users_spec_witness :
  body (fst (route (get_users "aaaaaaaaaaaaaaaaaaaaaaaa") Fixture.store0))
  = JArr [JObj [("_id", JStr "bbbbbbbbbbbbbbbbbbbbbbbb");
                ("username", JStr "bob");
                ("profilePicture", JStr "/uploads/bob.png")]].
Proof.
  destruct (get_users_spec Fixture.store0 "aaaaaaaaaaaaaaaaaaaaaaaa")
    as (_ & _ & listed & Hb & -> & _).
  exact Hb.
Defined.

(** C6 as stated fails on an [excludeUserId] that is not an identifier:
    every stored user differs from it, yet no user is listed and the answer
    is 500. *)
Lemma get_users_counterexample :
  let r := route (get_users "abc") Fixture.store0 in
  (forall u, In u (users Fixture.store0) -> oidToString (UserSchema._id u) <> "abc") /\
  users Fixture.store0 <> [] /\
  fst r = internal_server_error /\
  status (fst r) <> 200.
Proof.
  repeat split; try discriminate.
  intros u Hu E. simpl in Hu. destruct Hu as [<-|[<-|[]]]; discriminate E.
Qed.

(** ** PUT /users/:id/profile-picture *)

(** C7 (as amended).  [updateProfilePicture(userId, pictureRef)]: when
    [userId] is a well-formed identifier [o], the answer is 404 with no
    change when no user has it, and otherwise 200 with the updated user,
    whose [profilePicture] is the new reference and whose identifier,
    username, email, password, friends and creation date are the old ones
    ([updatedAt] is set to the time of the call), every other user and every
    post being untouched; when [userId] is not well formed the driver's cast
    throws, the answer is 500 and nothing changes. *)
Theorem put_users_profile_picture_spec (env : Env) (s : Store)
        (id profilePicture : string) :
  let r := route (put_users_profile_picture env id profilePicture) s in
  match castObjectId id with
  | None => r = (internal_server_error, s)
  | Some o =>
      match lookup UserSchema._id o (users s) with
      | None =>
          r = (mkResponse 404 (JObj [("success", JBool false);
                                     ("message", JStr "User not found")]), s)
      | Some u =>
          exists u' before after,
            fst r = json (JObj [("success", JBool true);
                                ("message",
                                 JStr "Profile picture updated successfully");
                                ("user", JObj (UserSchema.toJSON u'))]) /\
            users s = before ++ u :: after /\
            users (snd r) = before ++ u' :: after /\
            posts (snd r) = posts s /\
            UserSchema.profilePicture u' = profilePicture /\
            UserSchema._id u' = UserSchema._id u /\
            UserSchema.username u' = UserSchema.username u /\
            UserSchema.email u' = UserSchema.email u /\
            UserSchema.password u' = UserSchema.password u /\
            UserSchema.friends u' = UserSchema.friends u /\
            UserSchema.createdAt u' = UserSchema.createdAt u /\
            UserSchema.updatedAt u' = now env
      end
  end.
Proof.
  intros r. subst r.
  unfold route, put_users_profile_picture, User.findByIdAndUpdate, bind.
  destruct (castObjectId id) as [o|] eqn:Hcast.
  - rewrite (cast_run _ s Hcast). simpl.
    destruct (lookup UserSchema._id o (users s)) as [u|] eqn:Hu; simpl; [|reflexivity].
    destruct (lookup_split _ _ _ Hu) as (l1 & l2 & E & Hl1).
    destruct (lookup_Some _ _ _ Hu) as [_ Hkey].
    exists (User.set_updatedAt (now env) (User.set_profilePicture profilePicture u)),
      l1, l2.
    repeat split; try assumption.
    rewrite E.
    exact (updateOne_split UserSchema._id
             (fun _ => User.set_updatedAt (now env)
                         (User.set_profilePicture profilePicture u))
             l1 l2 u Hkey Hl1).
  - now rewrite (cast_fail _ s Hcast).
Qed.

Lemma put_users_profile_picture_spec_witness :
  exists u' before after,
    users (snd (route (put_users_profile_picture Fixture.env0
                         "bbbbbbbbbbbbbbbbbbbbbbbb" "/uploads/new.png")
                      Fixture.store0)) = before ++ u' :: after /\
    UserSchema.profilePicture u' = "/uploads/new.png" /\
    UserSchema.username u' = "bob" /\
    UserSchema.friends u' = [Fixture.alice_id].
Proof.
  destruct (put_users_profile_picture_spec Fixture.env0 Fixture.store0
              "bbbbbbbbbbbbbbbbbbbbbbbb" "/uploads/new.png")
    as (u' & l1 & l2 & _ & _ & Hs & _ & Hpic & _ & Hname & _ & _ & Hfr & _).
  exists u', l1, l2. repeat split; assumption.
Defined.

(** C7 as stated fails on a [userId] that is not an identifier: no user has
    it, yet the answer is 500, not 404. *)
Lemma put_users_profile_picture_counterexample :
  let r := route (put_users_profile_picture Fixture.env0 "abc" "/uploads/new.png")
                 Fixture.store0 in
  (forall u, In u (users Fixture.store0) -> oidToString (UserSchema._id u) <> "abc") /\
  status (fst r) = 500 /\
  status (fst r) <> 404.
Proof.
  repeat split; try discriminate.
  intros u Hu E. simpl in Hu. destruct Hu as [<-|[<-|[]]]; discriminate E.
Qed.

(** ** GET /posts *)

(** C8.  [listPosts()] answers 200 with one entry per stored post, in store
    order and whatever the post's privacy: the entry carries the post's
    identifier, content, likes and privacy, and in place of the owner
    reference the owner's [_id] and [username] ([null] when no stored user
    has that identifier).  The route takes nothing from the caller and
    leaves the store alone. *)
Theorem get_posts_spec (s : Store) :
  let r := route get_posts s in
  snd r = s /\
  status (fst r) = 200 /\
  exists entries,
    body (fst r) = JArr entries /\
    length entries = length (posts s) /\
    forall i p,
      nth_error (posts s) i = Some p ->
      exists e,
        nth_error entries i = Some e /\
        field "_id" (fields_of e) = Some (JId (PostSchema._id p)) /\
        field "content" (fields_of e) = Some (JStr (PostSchema.content p)) /\
        field "likes" (fields_of e) = Some (JArr (map JId (PostSchema.likes p))) /\
        field "privacy" (fields_of e)
          = Some (JStr (privacy_name (PostSchema.privacy p))) /\
        field "userId" (fields_of e)
          = Some (match lookup UserSchema._id (PostSchema.userId p) (users s) with
                  | Some u => JObj [("_id", JId (UserSchema._id u));
                                    ("username", JStr (UserSchema.username u))]
                  | None => JNull
                  end).
Proof.
  intros r. subst r. unfold route, get_posts, Post.find_all, Post.populate_userId, bind.
  simpl. repeat split.
  eexists. split; [reflexivity|]. split.
  - now rewrite !length_map.
  - intros i p Hp. eexists. split.
    + apply map_nth_error. apply map_nth_error. exact Hp.
    + unfold User.populated. simpl.
      destruct (lookup UserSchema._id (PostSchema.userId p) (users s)); repeat split.
Qed.

(** ** GET /user/:id *)

Lemma field_select_exclude (k k' : string) (fs : list (string * JSON)) :
  k <> k' -> field k (select_exclude k' fs) = field k fs.
Proof.
  intros Hne. induction fs as [|[k0 v] fs IH]; simpl; [reflexivity|].
  destruct (String.eqb k' k0) eqn:E; simpl.
  - apply String.eqb_eq in E. subst k0.
    now replace (String.eqb k k') with false by (symmetry; now apply String.eqb_neq).
  - now rewrite IH.
Qed.

(** C9.  [getUserProfile(userId)]: no response of the route has a
    [password] field, and the store is not written; for the identifier of
    an existing user the answer is 200 with that user's record less the
    [password] field, every other field being as stored. *)
Theorem get_user_spec (s : Store) (id : string) :
  let r := route (get_user id) s in
  snd r = s /\
  has_field "password" (body (fst r)) = false /\
  forall o u,
    castObjectId id = Some o ->
    lookup UserSchema._id o (users s) = Some u ->
    fst r = json (JObj [("_id", JId (UserSchema._id u));
                        ("username", JStr (UserSchema.username u));
                        ("email", JStr (UserSchema.email u));
                        ("profilePicture", JStr (UserSchema.profilePicture u));
                        ("friends", JArr (map JId (UserSchema.friends u)));
                        ("createdAt", JDate (UserSchema.createdAt u));
                        ("updatedAt", JDate (UserSchema.updatedAt u))]) /\
    field "password" (UserSchema.toJSON u) = Some (JStr (UserSchema.password u)) /\
    forall k, k <> "password" ->
      field k (fields_of (body (fst r))) = field k (UserSchema.toJSON u).
Proof.
  intros r. subst r. unfold route, get_user, bind.
  destruct (castObjectId id) as [o|] eqn:Hcast.
  - rewrite (User_findById_run _ s Hcast). simpl.
    destruct (lookup UserSchema._id o (users s)) as [u|] eqn:Hu; simpl.
    + split; [reflexivity|]. split; [reflexivity|].
      intros o' u' [= <-] Hu'. rewrite Hu in Hu'. injection Hu' as <-.
      split; [reflexivity|]. split; [reflexivity|].
      intros k Hk. exact (field_select_exclude (UserSchema.toJSON u) Hk).
    + split; [reflexivity|]. split; [reflexivity|].
      intros o' u' [= <-] Hu'. congruence.
  - unfold User.findById, bind. rewrite (cast_fail _ s Hcast). simpl.
    split; [reflexivity|]. split; [reflexivity|]. discriminate.
Qed.

Lemma get_user_spec_witness :
  fst (route (get_user "aaaaaaaaaaaaaaaaaaaaaaaa") Fixture.store0)
  = json (JObj [("_id", JStr "aaaaaaaaaaaaaaaaaaaaaaaa");
                ("username", JStr "alice");
                ("email", JStr "alice@example.org");
                ("profilePicture", JStr "");
                ("friends", JArr []);
                ("createdAt", JDate 1000);
                ("updatedAt", JDate 1000)]).
Proof.
  destruct (get_user_spec Fixture.store0 "aaaaaaaaaaaaaaaaaaaaaaaa") as (_ & _ & H).
  destruct (H Fixture.alice_id Fixture.alice eq_refl eq_refl) as [E _].
  exact E.
Defined.

(** ** Records that are not there *)

(** C10.  When no stored post answers to [postId], the like route does not
    answer 404: it finds [null], reads [likes] on it and throws (the cast
    throws first when [postId] is not even an identifier); the error
    middleware answers 500 and the store is unchanged.  The add-friend route
    does the same when no stored user answers to [userId].  The delete and
    friends routes, given the same identifier, test for the missing record
    and answer 404. *)
Theorem missing_record_spec (env : Env) (s : Store) (raw other : string) :
  ((forall o, castObjectId raw = Some o -> lookup PostSchema._id o (posts s) = None) ->
   route (post_post_like env other raw) s = (internal_server_error, s) /\
   forall o, castObjectId raw = Some o ->
     post_post_like env other raw s = (Throw TypeError, s) /\
     route (delete_posts raw other) s = (error 404 "Post not found", s)) /\
  ((forall o, castObjectId raw = Some o -> lookup UserSchema._id o (users s) = None) ->
   route (post_add_friend env raw other) s = (internal_server_error, s) /\
   forall o, castObjectId raw = Some o ->
     post_add_friend env raw other s = (Throw TypeError, s) /\
     route (get_user_friends raw) s = (error 404 "User not found", s)).
Proof.
  split.
  - intros Hpost. split.
    + unfold route, post_post_like, bind.
      destruct (castObjectId raw) as [o|] eqn:Hcast.
      * rewrite (Post_findById_run _ s Hcast), (Hpost o eq_refl). reflexivity.
      * unfold Post.findById, bind. now rewrite (cast_fail _ s Hcast).
    + intros o H. split.
      * unfold post_post_like, bind.
        now rewrite (Post_findById_run _ s H), (Hpost o H).
      * unfold route, delete_posts, bind.
        now rewrite (Post_findById_run _ s H), (Hpost o H).
  - intros Huser. split.
    + unfold route, post_add_friend, bind.
      destruct (castObjectId raw) as [o|] eqn:Hcast.
      * rewrite (User_findById_run _ s Hcast), (Huser o eq_refl). reflexivity.
      * unfold User.findById, bind. now rewrite (cast_fail _ s Hcast).
    + intros o H. split.
      * unfold post_add_friend, bind.
        now rewrite (User_findById_run _ s H), (Huser o H).
      * unfold route, get_user_friends, bind.
        now rewrite (User_findById_run _ s H), (Huser o H).
Qed.

Lemma missing_record_spec_witness :
  route (post_post_like Fixture.env0 "aaaaaaaaaaaaaaaaaaaaaaaa"
                        "cccccccccccccccccccccccc") Fixture.store0
    = (internal_server_error, Fixture.store0) /\
  route (delete_posts "cccccccccccccccccccccccc" "aaaaaaaaaaaaaaaaaaaaaaaa")
        Fixture.store0
    = (error 404 "Post not found", Fixture.store0) /\
  route (post_add_friend Fixture.env0 "cccccccccccccccccccccccc"
                         "aaaaaaaaaaaaaaaaaaaaaaaa") Fixture.store0
    = (internal_server_error, Fixture.store0) /\
  route (get_user_friends "cccccccccccccccccccccccc") Fixture.store0
    = (error 404 "User not found", Fixture.store0).
Proof.
  destruct (missing_record_spec Fixture.env0 Fixture.store0
              "cccccccccccccccccccccccc" "aaaaaaaaaaaaaaaaaaaaaaaa") as [Hp Hu].
  destruct Hp as [H1 H2]; [intros o [= <-]; reflexivity|].
  destruct Hu as [H3 H4]; [intros o [= <-]; reflexivity|].
  destruct (H2 Fixture.carol_id eq_refl) as [_ H2'].
  destruct (H4 Fixture.carol_id eq_refl) as [_ H4'].
  repeat split; assumption.
Defined.

(** * Lists of references stay free of duplicates

    Both membership routes test [includes] before they [push], so a list
    that has no duplicate keeps none; such a list holds any identifier at
    most once. *)

Lemma NoDup_occurrences (f : ObjectId) (l : list ObjectId) :
  NoDup l -> occurrences f l <= 1.
Proof.
  induction 1 as [|x l Hx Hl IH]; unfold occurrences in *; simpl; [lia|].
  destruct (oid_eqb f x) eqn:E; simpl; [|exact IH].
  apply oid_eqb_eq in E. subst x.
  apply occurrences_absent in Hx. unfold occurrences in Hx. lia.
Qed.

Lemma post_add_friend_NoDup (env : Env) (s : Store) (userId : string)
      (o f : ObjectId) (usr : UserSchema.t) :
  castObjectId userId = Some o ->
  lookup UserSchema._id o (users s) = Some usr ->
  NoDup (UserSchema.friends usr) ->
  exists l,
    friends_of o (snd (route (post_add_friend env userId (oidToString f)) s)) = Some l /\
    NoDup l /\ In f l.
Proof.
  intros Hcast Hu Hnd.
  destruct (post_add_friend_step env s userId f Hcast Hu) as (_ & Hin & Hout).
  destruct (MongooseArray.includes (UserSchema.friends usr) (oidToString f)) eqn:Hinc.
  - apply includes_In in Hinc. exists (UserSchema.friends usr).
    unfold friends_of. rewrite (Hin Hinc), Hu. now repeat split.
  - apply includes_not_In in Hinc. exists (UserSchema.friends usr ++ [f]).
    unfold friends_of. rewrite (Hout Hinc). simpl.
    destruct (@lookup_updateOne_same _ UserSchema._id o usr
                (User.set_updatedAt (now env)
                   (User.set_friends (UserSchema.friends usr ++ [f]) usr))
                _ Hu) as [E|E].
    + rewrite E. simpl. repeat split.
      * apply NoDup_app; [assumption|repeat constructor; intros []|].
        intros a Ha [<-|[]]. contradiction.
      * apply in_app_iff. right. now left.
    + destruct (lookup_Some _ _ _ Hu) as [_ Hkey]. now elim E.
Qed.

Lemma post_post_like_NoDup (env : Env) (s : Store) (postId : string)
      (o u : ObjectId) (p : PostSchema.t) :
  castObjectId postId = Some o ->
  lookup PostSchema._id o (posts s) = Some p ->
  NoDup (PostSchema.likes p) ->
  exists l,
    likes_of o (snd (route (post_post_like env (oidToString u) postId) s)) = Some l /\
    NoDup l /\ (In u l <-> ~ In u (PostSchema.likes p)).
Proof.
  intros Hcast Hp Hnd.
  destruct (post_post_like_step env s postId u Hcast Hp) as (_ & _ & p' & Hp' & Hl).
  exists (PostSchema.likes p'). unfold likes_of. rewrite Hp'. simpl.
  split; [reflexivity|]. rewrite Hl.
  destruct (MongooseArray.includes (PostSchema.likes p) (oidToString u)) eqn:Hinc.
  - apply includes_In in Hinc. split.
    + now apply NoDup_filter.
    + rewrite pull_In. tauto.
  - apply includes_not_In in Hinc. split.
    + apply NoDup_app; [assumption|repeat constructor; intros []|].
      intros a Ha [<-|[]]. contradiction.
    + rewrite in_app_iff. simpl. tauto.
Qed.

(** * The application as a whole *)

(** ** Each route changes at most one document *)

Lemma user_updated_transition (s : Store) (o : ObjectId) (u u' : UserSchema.t) :
  lookup UserSchema._id o (users s) = Some u ->
  same_identity u u' ->
  Transition s (User.set_users (updateOne UserSchema._id o (fun _ => u') (users s)) s).
Proof.
  intros Hu Hsame.
  destruct (lookup_split _ _ _ Hu) as (l1 & l2 & E & Hl1).
  destruct (lookup_Some _ _ _ Hu) as [_ Hkey].
  apply t_user_updated with (before := l1) (after := l2) (u := u) (u' := u');
    try assumption; try reflexivity.
  simpl. rewrite E.
  exact (updateOne_split UserSchema._id (fun _ => u') l1 l2 u Hkey Hl1).
Qed.

Lemma post_updated_transition (s : Store) (o : ObjectId) (p p' : PostSchema.t) :
  lookup PostSchema._id o (posts s) = Some p ->
  same_post p p' ->
  Transition s (Post.set_posts (updateOne PostSchema._id o (fun _ => p') (posts s)) s).
Proof.
  intros Hp Hsame.
  destruct (lookup_split _ _ _ Hp) as (l1 & l2 & E & Hl1).
  destruct (lookup_Some _ _ _ Hp) as [_ Hkey].
  apply t_post_updated with (before := l1) (after := l2) (p := p) (p' := p');
    try assumption; try reflexivity.
  simpl. rewrite E.
  exact (updateOne_split PostSchema._id (fun _ => p') l1 l2 p Hkey Hl1).
Qed.

Lemma post_signup_transition {B : bcrypt.Lib} (env : Env) (s : Store)
      (username email password : string) :
  Transition s (snd (route (post_signup env username email password) s)).
Proof.
  unfold route, post_signup, bind. rewrite findOne_email_run.
  destruct (find _ (users s)); cbn [option_map]; [now apply t_none|].
  rewrite findOne_username_run.
  destruct (find _ (users s)); cbn [option_map]; [now apply t_none|].
  unfold User.save, bind. cbn [User.new Document.fresh Document.isNew Document.value].
  destruct (UserSchema.validate _) eqn:V; [|now apply t_none].
  cbn [get].
  destruct (existsb _ (users s)) eqn:C; [now apply t_none|].
  simpl.
  eapply t_user_added; [reflexivity|reflexivity|exact V|exact C].
Qed.

Lemma post_login_transition {B : bcrypt.Lib} {J : jwt.Lib} (env : Env) (s : Store)
      (email password : string) :
  snd (route (post_login env email password) s) = s.
Proof.
  unfold route, post_login, bind. rewrite findOne_email_run.
  destruct (find _ (users s)); cbn [option_map]; [|reflexivity].
  cbn [Document.value Document.loaded].
  destruct (bcrypt.compare _ _); reflexivity.
Qed.

Lemma post_posts_transition (env : Env) (s : Store) (userId content : string)
      (image privacy : option string) :
  Transition s (snd (route (post_posts env userId content image privacy) s)).
Proof.
  unfold route, post_posts, bind.
  destruct (Post_new (newId env) userId content image privacy) as [d|] eqn:N;
    [|now apply t_none].
  unfold Post_save_new, bind.
  assert (Hd : PostSchema.likes (Document.value d) = [] /\
               PostSchema.comments (Document.value d) = []).
  { unfold Post_new in N. destruct (castObjectId userId); [|discriminate].
    destruct (match privacy with Some n => privacy_of_name n | None => Some Public end);
      [|discriminate].
    injection N as <-. now split. }
  destruct Hd as [Hl Hc].
  destruct (String.eqb (PostSchema.content (Document.value d)) "") eqn:E;
    [now apply t_none|].
  cbn [get].
  destruct (existsb _ (posts s)) eqn:C; [now apply t_none|].
  cbn [put ret fst snd].
  rewrite (Post_findById_run _ _ (cast_toString _)).
  cbn [Post.populate_userId bind get ret snd fst].
  eapply t_post_added; [reflexivity|reflexivity| | | |exact C].
  - simpl. now apply String.eqb_neq.
  - exact Hl.
  - exact Hc.
Qed.

Lemma post_post_like_transition (env : Env) (s : Store) (userId postId : string) :
  Transition s (snd (route (post_post_like env userId postId) s)).
Proof.
  unfold route, post_post_like, bind.
  destruct (castObjectId postId) as [o|] eqn:Hc.
  - rewrite (Post_findById_run _ s Hc).
    destruct (lookup PostSchema._id o (posts s)) as [p|] eqn:Hp;
      cbn [option_map]; [|now apply t_none].
    destruct (lookup_Some _ _ _ Hp) as [_ Hkey].
    cbn [Document.value Document.loaded].
    destruct (MongooseArray.includes (PostSchema.likes p) userId); cbn [negb].
    + unfold Post.findByIdAndUpdate_pull_likes, bind. rewrite (cast_run _ s Hc).
      destruct (castObjectId userId) as [u|] eqn:Hu.
      * rewrite (cast_run _ s Hu). cbn [get]. rewrite Hp. simpl.
        apply (@post_updated_transition s o p _ Hp). now repeat split.
      * rewrite (cast_fail _ s Hu). now apply t_none.
    + unfold MongooseArray.push, bind.
      destruct (castObjectId userId) as [u|] eqn:Hu.
      * rewrite (cast_run _ s Hu). simpl. rewrite Hkey.
        apply (@post_updated_transition s o p _ Hp). now repeat split.
      * rewrite (cast_fail _ s Hu). now apply t_none.
  - unfold Post.findById, bind. rewrite (cast_fail _ s Hc). now apply t_none.
Qed.

Lemma delete_posts_transition (s : Store) (postId userId : string) :
  Transition s (snd (route (delete_posts postId userId) s)).
Proof.
  unfold route, delete_posts, bind.
  destruct (castObjectId postId) as [o|] eqn:Hc.
  - rewrite (Post_findById_run _ s Hc).
    destruct (lookup PostSchema._id o (posts s)) as [p|] eqn:Hp;
      cbn [option_map]; [|now apply t_none].
    cbn [Document.value Document.loaded].
    destruct (String.eqb _ userId); cbn [negb]; [|now apply t_none].
    unfold Post.findByIdAndDelete, bind. rewrite (cast_run _ s Hc). simpl.
    destruct (lookup_split _ _ _ Hp) as (l1 & l2 & E & Hl1).
    destruct (lookup_Some _ _ _ Hp) as [_ Hkey].
    apply t_post_deleted with (before := l1) (after := l2) (p := p);
      [assumption| |reflexivity].
    simpl. rewrite E. now apply deleteOne_split.
  - unfold Post.findById, bind. rewrite (cast_fail _ s Hc). now apply t_none.
Qed.

Lemma post_add_friend_transition (env : Env) (s : Store) (userId friendId : string) :
  Transition s (snd (route (post_add_friend env userId friendId) s)).
Proof.
  unfold route, post_add_friend, bind.
  destruct (castObjectId userId) as [o|] eqn:Hc.
  - rewrite (User_findById_run _ s Hc).
    destruct (lookup UserSchema._id o (users s)) as [u|] eqn:Hu;
      cbn [option_map]; [|now apply t_none].
    destruct (lookup_Some _ _ _ Hu) as [_ Hkey].
    cbn [Document.value Document.loaded].
    destruct (MongooseArray.includes (UserSchema.friends u) friendId); cbn [negb];
      [now apply t_none|].
    unfold MongooseArray.push, bind.
    destruct (castObjectId friendId) as [f|] eqn:Hf.
    + rewrite (cast_run _ s Hf). simpl. rewrite Hkey.
      apply (@user_updated_transition s o u _ Hu). now repeat split.
    + rewrite (cast_fail _ s Hf). now apply t_none.
  - unfold User.findById, bind. rewrite (cast_fail _ s Hc). now apply t_none.
Qed.

Lemma put_users_profile_picture_transition (env : Env) (s : Store)
      (id profilePicture : string) :
  Transition s (snd (route (put_users_profile_picture env id profilePicture) s)).
Proof.
  unfold route, put_users_profile_picture, User.findByIdAndUpdate, bind.
  destruct (castObjectId id) as [o|] eqn:Hc.
  - rewrite (cast_run _ s Hc). cbn [get].
    destruct (lookup UserSchema._id o (users s)) as [u|] eqn:Hu; [|now apply t_none].
    simpl. apply (@user_updated_transition s o u _ Hu). now repeat split.
  - rewrite (cast_fail _ s Hc). now apply t_none.
Qed.

(** The routes that only read. *)
Lemma get_posts_reads (s : Store) : snd (route get_posts s) = s.
Proof. reflexivity. Qed.

Lemma get_users_reads (s : Store) (userId : string) :
  snd (route (get_users userId) s) = s.
Proof.
  unfold route, get_users, User.find_ne, bind.
  destruct (castObjectId userId) as [o|] eqn:Hc.
  - now rewrite (cast_run _ s Hc).
  - now rewrite (cast_fail _ s Hc).
Qed.

Lemma get_user_friends_reads (s : Store) (userId : string) :
  snd (route (get_user_friends userId) s) = s.
Proof.
  unfold route, get_user_friends, bind.
  destruct (castObjectId userId) as [o|] eqn:Hc.
  - rewrite (User_findById_run _ s Hc). cbn [get].
    now destruct (lookup UserSchema._id o (users s)).
  - unfold User.findById, bind. now rewrite (cast_fail _ s Hc).
Qed.

Lemma get_user_reads (s : Store) (id : string) : snd (route (get_user id) s) = s.
Proof.
  unfold route, get_user, bind.
  destruct (castObjectId id) as [o|] eqn:Hc.
  - now rewrite (User_findById_run _ s Hc).
  - unfold User.findById, bind. now rewrite (cast_fail _ s Hc).
Qed.

Lemma app_transition {B : bcrypt.Lib} {J : jwt.Lib} (env : Env) (req : Request)
      (s : Store) :
  Transition s (snd (app env req s)).
Proof.
  destruct req; unfold app.
  - apply post_signup_transition.
  - apply t_none, post_login_transition.
  - apply post_posts_transition.
  - apply t_none, get_posts_reads.
  - apply post_post_like_transition.
  - apply delete_posts_transition.
  - apply t_none, get_users_reads.
  - apply post_add_friend_transition.
  - apply t_none, get_user_friends_reads.
  - apply put_users_profile_picture_transition.
  - apply t_none, get_user_reads.
Qed.

(** X1.  Every request is all or nothing on a single document: it leaves the
    store as it is, or appends one user, or appends one post, or rewrites
    one user without touching its identifier, username, email, password
    hash or creation date, or rewrites one post without touching its owner,
    content, image, comments, privacy or creation date, or removes one
    post. *)
Theorem app_changes_one_document {B : bcrypt.Lib} {J : jwt.Lib} (env : Env)
        (req : Request) (s : Store) :
  Transition s (snd (app env req s)).
Proof. apply app_transition. Qed.

(** ** What every request keeps *)

Lemma NoDup_snoc (A : Type) (l : list A) (x : A) :
  NoDup l -> ~ In x l -> NoDup (l ++ [x]).
Proof.
  intros Hl Hx. apply NoDup_app; [assumption|repeat constructor; intros []|].
  intros a Ha [<-|[]]. contradiction.
Qed.

Lemma clashes_none (u : UserSchema.t) (l : list UserSchema.t) :
  existsb (User.clashes u) l = false ->
  ~ In (UserSchema._id u) (map UserSchema._id l) /\
  ~ In (UserSchema.username u) (map UserSchema.username l) /\
  ~ In (UserSchema.email u) (map UserSchema.email l).
Proof.
  intros H.
  assert (Hv : forall v, In v l -> User.clashes u v = false).
  { intros v Hv. destruct (User.clashes u v) eqn:E; [|reflexivity].
    assert (X : existsb (User.clashes u) l = true)
      by (apply existsb_exists; now exists v).
    congruence. }
  repeat split; intros Hin; apply in_map_iff in Hin; destruct Hin as (v & E & Hin);
    specialize (Hv v Hin); unfold User.clashes in Hv;
    apply orb_false_iff in Hv; destruct Hv as [Hv H3];
    apply orb_false_iff in Hv; destruct Hv as [H1 H2].
  - apply oid_eqb_neq in H1. contradiction.
  - apply String.eqb_neq in H2. contradiction.
  - apply String.eqb_neq in H3. contradiction.
Qed.

Lemma post_id_free (p : PostSchema.t) (l : list PostSchema.t) :
  existsb (fun q => oid_eqb (PostSchema._id q) (PostSchema._id p)) l = false ->
  ~ In (PostSchema._id p) (map PostSchema._id l).
Proof.
  intros H Hin. apply in_map_iff in Hin. destruct Hin as (q & E & Hin).
  assert (X : existsb (fun q => oid_eqb (PostSchema._id q) (PostSchema._id p)) l = true).
  { apply existsb_exists. exists q. split; [assumption|]. now apply oid_eqb_eq. }
  congruence.
Qed.

Lemma map_replace (A B : Type) (f : A -> B) (before after : list A) (a a' : A) :
  f a' = f a -> map f (before ++ a' :: after) = map f (before ++ a :: after).
Proof. intros H. rewrite !map_app. simpl. now rewrite H. Qed.

Lemma Transition_well_formed (s s' : Store) :
  Transition s s' -> well_formed s -> well_formed s'.
Proof.
  intros T [Hid Hname Hmail Hpid Hu Hp].
  destruct T as [-> | u Eu Ep V C | p Ep Eu Hc _ _ C
                 | l1 l2 u u' E E' Ep (I1 & I2 & I3 & I4 & _)
                 | l1 l2 p p' E E' Eu (P1 & _ & P3 & _)
                 | l1 l2 p E E' Eu].
  - now constructor.
  - destruct (clashes_none _ _ C) as (C1 & C2 & C3).
    constructor; rewrite ?Eu, ?Ep, ?map_app; simpl;
      try (now apply NoDup_snoc); try assumption.
    apply Forall_app. split; [assumption|now repeat constructor].
  - pose proof (post_id_free _ _ C) as C1.
    constructor; rewrite ?Eu, ?Ep, ?map_app; simpl;
      try (now apply NoDup_snoc); try assumption.
    apply Forall_app. split; [assumption|now repeat constructor].
  - rewrite E in Hid, Hname, Hmail, Hu.
    constructor; rewrite ?E', ?Ep; try assumption.
    + now rewrite (map_replace UserSchema._id l1 l2 u u' I1).
    + now rewrite (map_replace UserSchema.username l1 l2 u u' I2).
    + now rewrite (map_replace UserSchema.email l1 l2 u u' I3).
    + apply Forall_app in Hu. destruct Hu as [H1 H2]. inversion H2; subst.
      apply Forall_app. split; [assumption|]. constructor; [|assumption].
      unfold UserSchema.validate in *. now rewrite I2, I3, I4.
  - rewrite E in Hpid, Hp.
    constructor; rewrite ?E', ?Eu; try assumption.
    + now rewrite (map_replace PostSchema._id l1 l2 p p' P1).
    + apply Forall_app in Hp. destruct Hp as [H1 H2]. inversion H2; subst.
      apply Forall_app. split; [assumption|]. constructor; [|assumption].
      now rewrite P3.
  - rewrite E in Hpid, Hp.
    constructor; rewrite ?E', ?Eu; try assumption.
    + rewrite map_app in *. simpl in Hpid. now apply NoDup_remove_1 in Hpid.
    + apply Forall_app in Hp. destruct Hp as [H1 H2]. inversion H2; subst.
      apply Forall_app. now split.
Qed.

(** X2.  Whatever is asked of the application, in whatever order, the unique
    indexes keep holding and the required paths stay filled. *)
Theorem serve_well_formed {B : bcrypt.Lib} {J : jwt.Lib}
        (reqs : list (Env * Request)) (s : Store) :
  well_formed s -> well_formed (serve reqs s).
Proof.
  revert s. induction reqs as [|[env req] rest IH]; intros s H; simpl; [assumption|].
  apply IH. exact (Transition_well_formed (app_transition env req s) H).
Qed.

Lemma serve_well_formed_witness :
  well_formed (serve (B := Fixture.toy_bcrypt) (J := Fixture.toy_jwt)
                     Samples.day Fixture.store0).
Proof.
  apply serve_well_formed.
  constructor; simpl.
  - repeat constructor; simpl; intros H; repeat destruct H as [H|H];
      try (apply (f_equal oidToString) in H; discriminate H); assumption.
  - repeat constructor; simpl; intros H; repeat destruct H as [H|H];
      try discriminate H; assumption.
  - repeat constructor; simpl; intros H; repeat destruct H as [H|H];
      try discriminate H; assumption.
  - repeat constructor; simpl; intros H; repeat destruct H as [H|H];
      try (apply (f_equal oidToString) in H; discriminate H); assumption.
  - repeat constructor.
  - repeat constructor; discriminate.
Defined.

Lemma Transition_identities (s s' : Store) :
  Transition s s' ->
  exists added,
    map identity (users s') = map identity (users s) ++ added /\ length added <= 1.
Proof.
  intros [-> | u Eu Ep V C | p Ep Eu Hc _ _ C
          | l1 l2 u u' E E' Ep (I1 & I2 & I3 & I4 & _)
          | l1 l2 p p' E E' Eu _
          | l1 l2 p E E' Eu].
  - exists []. rewrite app_nil_r. split; [reflexivity|simpl; lia].
  - exists [identity u]. rewrite Eu, map_app. split; [reflexivity|simpl; lia].
  - exists []. rewrite Eu, app_nil_r. split; [reflexivity|simpl; lia].
  - exists []. rewrite E, E', app_nil_r. split; [|simpl; lia].
    apply map_replace. unfold identity. now rewrite I1, I2, I3, I4.
  - exists []. rewrite Eu, app_nil_r. split; [reflexivity|simpl; lia].
  - exists []. rewrite Eu, app_nil_r. split; [reflexivity|simpl; lia].
Qed.

(** X3.  No sequence of requests removes a user or changes a user's identifier,
    username, email or password hash: the users it leaves are the users it
    found, in the same order, followed by those it registered, at most one
    per request. *)
Theorem serve_keeps_users {B : bcrypt.Lib} {J : jwt.Lib}
        (reqs : list (Env * Request)) (s : Store) :
  exists added,
    map identity (users (serve reqs s)) = map identity (users s) ++ added /\
    length added <= length reqs.
Proof.
  revert s. induction reqs as [|[env req] rest IH]; intros s; simpl.
  - exists []. now rewrite app_nil_r.
  - destruct (Transition_identities (app_transition env req s)) as (a1 & E1 & L1).
    destruct (IH (snd (app env req s))) as (a2 & E2 & L2).
    exists (a1 ++ a2). rewrite E2, E1, <- app_assoc. split; [reflexivity|].
    rewrite length_app. lia.
Qed.

Lemma Transition_posts (s s' : Store) :
  Transition s s' ->
  forall p', In p' (posts s') ->
    (exists p, In p (posts s) /\ same_post p p') \/
    (PostSchema.likes p' = [] /\ PostSchema.comments p' = [] /\
     PostSchema.content p' <> "" /\
     ~ In (PostSchema._id p') (map PostSchema._id (posts s))).
Proof.
  assert (R : forall p, same_post p p) by (intros p; now repeat split).
  intros [-> | u Eu Ep V C | p Ep Eu Hc Hl Hcm C
          | l1 l2 u u' E E' Ep _
          | l1 l2 p p' E E' Eu Hsame
          | l1 l2 p E E' Eu] q Hq.
  - left. now exists q.
  - left. exists q. rewrite Ep in Hq. now split.
  - rewrite Ep in Hq. apply in_app_iff in Hq. destruct Hq as [Hq|[<-|[]]].
    + left. now exists q.
    + right. repeat split; try assumption. now apply post_id_free.
  - left. exists q. rewrite Ep in Hq. now split.
  - rewrite E' in Hq. apply in_app_iff in Hq. left.
    destruct Hq as [Hq|[<-|Hq]].
    + exists q. split; [|apply R]. rewrite E. apply in_app_iff. now left.
    + exists p. split; [|assumption]. rewrite E. apply in_app_iff. right. now left.
    + exists q. split; [|apply R]. rewrite E. apply in_app_iff. right. now right.
  - rewrite E' in Hq. apply in_app_iff in Hq. left. exists q. split; [|apply R].
    rewrite E. apply in_app_iff. destruct Hq; [now left|right; now right].
Qed.

(** X4.  A request leaves every post it does not remove with the owner, content,
    image, privacy, comments and creation date it had; the only post that can
    appear is one with no like and no comment, non-empty content and an
    identifier that was not in use. *)
Theorem app_keeps_posts {B : bcrypt.Lib} {J : jwt.Lib} (env : Env) (req : Request)
        (s : Store) (p' : PostSchema.t) :
  In p' (posts (snd (app env req s))) ->
  (exists p, In p (posts s) /\ same_post p p') \/
  (PostSchema.likes p' = [] /\ PostSchema.comments p' = [] /\
   PostSchema.content p' <> "" /\
   ~ In (PostSchema._id p') (map PostSchema._id (posts s))).
Proof. apply Transition_posts, app_transition. Qed.

Lemma app_keeps_posts_witness :
  exists p,
    In p (posts Fixture.store0) /\
    same_post p
      (PostSchema.mk Fixture.post1_id Fixture.alice_id "hello" ""
                     [Fixture.alice_id; Fixture.bob_id; Fixture.carol_id] []
                     Private 4000 7200000).
Proof.
  destruct (@app_keeps_posts Fixture.toy_bcrypt Fixture.toy_jwt Fixture.env0
              (POST_post_like "cccccccccccccccccccccccc" "111111111111111111111111")
              Fixture.store0
              (PostSchema.mk Fixture.post1_id Fixture.alice_id "hello" ""
                             [Fixture.alice_id; Fixture.bob_id; Fixture.carol_id] []
                             Private 4000 7200000))
    as [H|(H & _)].
  - left. reflexivity.
  - exact H.
  - discriminate H.
Defined.

(** X5.  The comments of the schema are a dead field: from a store whose posts
    have no comment, no sequence of requests produces one. *)
Theorem serve_no_comment {B : bcrypt.Lib} {J : jwt.Lib}
        (reqs : list (Env * Request)) (s : Store) :
  (forall p, In p (posts s) -> PostSchema.comments p = []) ->
  forall p, In p (posts (serve reqs s)) -> PostSchema.comments p = [].
Proof.
  revert s. induction reqs as [|[env req] rest IH]; intros s H; simpl; [exact H|].
  apply IH. intros q Hq.
  destruct (Transition_posts (app_transition env req s) q Hq)
    as [(p & Hp & (_ & _ & _ & _ & E & _)) | (_ & E & _)].
  - rewrite E. now apply H.
  - exact E.
Qed.

Lemma serve_no_comment_witness :
  Forall (fun p => PostSchema.comments p = [])
         (posts (serve (B := Fixture.toy_bcrypt) (J := Fixture.toy_jwt)
                       Samples.day Fixture.store0)).
Proof.
  apply Forall_forall.
  apply (@serve_no_comment Fixture.toy_bcrypt Fixture.toy_jwt Samples.day
           Fixture.store0).
  simpl. intros p [<-|[<-|[]]]; reflexivity.
Defined.

(** X6.  [login] and the [GET] routes never write, whatever they are sent. *)
Theorem reads_only_spec {B : bcrypt.Lib} {J : jwt.Lib} (env : Env) (req : Request)
        (s : Store) :
  reads_only req = true -> snd (app env req s) = s.
Proof.
  destruct req; simpl; try discriminate; intros _; unfold app.
  - apply post_login_transition.
  - apply get_posts_reads.
  - apply get_users_reads.
  - apply get_user_friends_reads.
  - apply get_user_reads.
Qed.

Lemma reads_only_spec_witness :
  snd (app (B := Fixture.toy_bcrypt) (J := Fixture.toy_jwt) Fixture.env0
           (POST_login "alice@example.org" "wonder") Fixture.store0)
  = Fixture.store0.
Proof. apply reads_only_spec. reflexivity. Defined.

(** ** Registration and login together *)

Lemma find_snoc_new (A : Type) (f : A -> bool) (l : list A) (a : A) :
  find f l = None -> f a = true -> find f (l ++ [a]) = Some a.
Proof.
  intros Hl Ha. induction l as [|x l IH]; simpl in *.
  - now rewrite Ha.
  - destruct (f x); [discriminate|]. now apply IH.
Qed.

Lemma find_snoc_old (A : Type) (f : A -> bool) (l : list A) (a x : A) :
  find f l = Some x -> find f (l ++ [a]) = Some x.
Proof.
  induction l as [|y l IH]; simpl; [discriminate|].
  destruct (f y); [trivial|exact IH].
Qed.

(** What a registration that goes through leaves behind. *)
Lemma post_signup_stores {B : bcrypt.Lib} (env : Env) (s : Store)
      (username email password : string) :
  (forall u, In u (users s) ->
     UserSchema.email u <> email /\ UserSchema.username u <> username /\
     UserSchema._id u <> newId env) ->
  username <> "" -> email <> "" ->
  route (post_signup env username email password) s =
    (mkResponse 201 (JObj [("message", JStr "User registered successfully")]),
     mkStore (users s ++
              [UserSchema.mk (newId env) username email
                             (bcrypt.hash password 10 (salt env))
                             "" [] (now env) (now env)])
             (posts s)).
Proof.
  intros Hfree Hu He.
  assert (F : find (fun u => String.eqb (UserSchema.email u) email) (users s) = None).
  { apply find_field_None. intros a Ha. now apply Hfree. }
  assert (G : find (fun u => String.eqb (UserSchema.username u) username) (users s)
              = None).
  { apply find_field_None. intros a Ha. now apply Hfree. }
  unfold route, post_signup, bind.
  rewrite findOne_email_run, F. cbn [option_map].
  rewrite findOne_username_run, G. cbn [option_map].
  unfold User.save, UserSchema.validate, bind. simpl.
  rewrite (nonempty_eqb Hu), (nonempty_eqb He),
    (nonempty_eqb (bcrypt.hash_nonempty password 10 (salt env))).
  simpl.
  assert (C : existsb
                (User.clashes
                   (UserSchema.mk (newId env) username email
                      (bcrypt.hash password 10 (salt env)) "" [] 0 0))
                (users s) = false).
  { apply not_true_is_false. intros H. apply existsb_exists in H.
    destruct H as [v [Hv Hc]]. destruct (Hfree v Hv) as (H1 & H2 & H3).
    unfold User.clashes in Hc. simpl in Hc.
    apply orb_true_iff in Hc. destruct Hc as [Hc|Hc];
      [apply orb_true_iff in Hc; destruct Hc as [Hc|Hc]|].
    - apply oid_eqb_eq in Hc. contradiction.
    - apply String.eqb_eq in Hc. contradiction.
    - apply String.eqb_eq in Hc. contradiction. }
  now rewrite C.
Qed.

(** X7.  Registration, then login.  After a registration that went through, the
    same email with a password that bcrypt verifies against the stored hash
    logs in as the new user: 200, a token over the identifier the
    registration generated, and the store left as the registration left it;
    a password that bcrypt does not verify gets 400. *)
Theorem signup_then_login {B : bcrypt.Lib} {J : jwt.Lib} (env env' : Env) (s : Store)
        (username email password attempt : string) :
  (forall u, In u (users s) ->
     UserSchema.email u <> email /\ UserSchema.username u <> username /\
     UserSchema._id u <> newId env) ->
  username <> "" -> email <> "" ->
  let s1 := snd (route (post_signup env username email password) s) in
  let r := route (post_login env' email attempt) s1 in
  snd r = s1 /\
  (bcrypt.compare attempt (bcrypt.hash password 10 (salt env)) = false ->
   fst r = error 400 "Invalid credentials") /\
  (bcrypt.compare attempt (bcrypt.hash password 10 (salt env)) = true ->
   status (fst r) = 200 /\
   field "token" (fields_of (body (fst r))) =
     Some (JStr (jwt.encode (jwt.mkPayload (newId env) (now env' / 1000)
                                           (now env' / 1000 + 3600))
                            (JWT_SECRET env')))).
Proof.
  intros Hfree Hu He s1 r. subst r s1.
  rewrite (post_signup_stores env s password Hfree Hu He).
  cbn [snd]. unfold route, post_login, bind. rewrite findOne_email_run.
  cbn [users].
  rewrite (find_snoc_new (fun u => String.eqb (UserSchema.email u) email) (users s)
             (UserSchema.mk (newId env) username email
                            (bcrypt.hash password 10 (salt env)) "" []
                            (now env) (now env))).
  - cbn [option_map Document.value Document.loaded UserSchema.password].
    destruct (bcrypt.compare attempt (bcrypt.hash password 10 (salt env))); simpl.
    + repeat split; discriminate.
    + repeat split; discriminate.
  - apply find_field_None. intros a Ha. now apply Hfree.
  - apply String.eqb_refl.
Qed.

Lemma signup_then_login_witness :
  let s1 := snd (route (post_signup (B := Fixture.toy_bcrypt) Fixture.env0
                                    "carol" "carol@example.org" "pw")
                       Fixture.store0) in
  status (fst (route (post_login (B := Fixture.toy_bcrypt) (J := Fixture.toy_jwt)
                                 Samples.env1 "carol@example.org" "pw") s1)) = 200.
Proof.
  assert (Hfree : forall u, In u (users Fixture.store0) ->
            UserSchema.email u <> "carol@example.org" /\
            UserSchema.username u <> "carol" /\
            UserSchema._id u <> newId Fixture.env0).
  { intros u [<-|[<-|[]]]; repeat split; try discriminate;
      intros E; apply (f_equal oidToString) in E; discriminate E. }
  destruct (@signup_then_login Fixture.toy_bcrypt Fixture.toy_jwt Fixture.env0
              Samples.env1 Fixture.store0 "carol" "carol@example.org" "pw" "pw"
              Hfree) as (_ & _ & H); try discriminate.
  now destruct (H eq_refl).
Defined.

(** X8.  Registration, then registration again.  After a registration that went
    through, its email is refused whatever the username, and its username
    is refused with any email that is not registered; nothing is stored. *)
Theorem signup_then_signup {B : bcrypt.Lib} (env env' : Env) (s : Store)
        (username email password username' email' password' : string) :
  (forall u, In u (users s) ->
     UserSchema.email u <> email /\ UserSchema.username u <> username /\
     UserSchema._id u <> newId env) ->
  username <> "" -> email <> "" ->
  let s1 := snd (route (post_signup env username email password) s) in
  route (post_signup env' username' email password') s1
    = (error 400 "Email already registered", s1) /\
  ((forall u, In u (users s) -> UserSchema.email u <> email') -> email' <> email ->
   route (post_signup env' username email' password') s1
     = (error 400 "Username already taken", s1)).
Proof.
  intros Hfree Hu He s1. subst s1.
  rewrite (post_signup_stores env s password Hfree Hu He). cbn [snd].
  set (u := UserSchema.mk (newId env) username email
                          (bcrypt.hash password 10 (salt env)) "" []
                          (now env) (now env)).
  split.
  - unfold route, post_signup, bind. rewrite findOne_email_run. cbn [users].
    rewrite (find_snoc_new (fun v => String.eqb (UserSchema.email v) email)
               (users s) u); [reflexivity| |apply String.eqb_refl].
    apply find_field_None. intros a Ha. now apply Hfree.
  - intros Hfree' Hne.
    unfold route, post_signup, bind. rewrite findOne_email_run. cbn [users].
    assert (F : find (fun v => String.eqb (UserSchema.email v) email')
                     (users s ++ [u]) = None).
    { apply find_field_None. intros a Ha. apply in_app_iff in Ha.
      destruct Ha as [Ha|[<-|[]]]; [now apply Hfree'|]. simpl. congruence. }
    rewrite F. cbn [option_map]. rewrite findOne_username_run. cbn [users].
    rewrite (find_snoc_new (fun v => String.eqb (UserSchema.username v) username)
               (users s) u); [reflexivity| |apply String.eqb_refl].
    apply find_field_None. intros a Ha. now apply Hfree.
Qed.

Lemma signup_then_signup_witness :
  let s1 := snd (route (post_signup (B := Fixture.toy_bcrypt) Fixture.env0
                                    "carol" "carol@example.org" "pw")
                       Fixture.store0) in
  route (post_signup (B := Fixture.toy_bcrypt) Samples.env1
                     "carla" "carol@example.org" "other") s1
  = (error 400 "Email already registered", s1).
Proof.
  assert (Hfree : forall u, In u (users Fixture.store0) ->
            UserSchema.email u <> "carol@example.org" /\
            UserSchema.username u <> "carol" /\
            UserSchema._id u <> newId Fixture.env0).
  { intros u [<-|[<-|[]]]; repeat split; try discriminate;
      intros E; apply (f_equal oidToString) in E; discriminate E. }
  destruct (@signup_then_signup Fixture.toy_bcrypt Fixture.env0 Samples.env1
              Fixture.store0 "carol" "carol@example.org" "pw" "carla"
              "x@example.org" "other" Hfree) as [H _]; try discriminate.
  exact H.
Defined.

(** ** Creating posts *)

Lemma lookup_snoc_new (A : Type) (key : A -> ObjectId) (o : ObjectId)
      (l : list A) (a : A) :
  (forall b, In b l -> key b <> o) -> key a = o ->
  lookup key o (l ++ [a]) = Some a.
Proof.
  intros Hl Ha.
  apply (@lookup_middle A key o l [] a Ha Hl).
Qed.

Lemma deleteOne_snoc (A : Type) (key : A -> ObjectId) (o : ObjectId)
      (l : list A) (a : A) :
  (forall b, In b l -> key b <> o) -> key a = o ->
  deleteOne key o (l ++ [a]) = l.
Proof.
  intros Hl Ha. rewrite (@deleteOne_split A key o l [] a Ha Hl). apply app_nil_r.
Qed.

Lemma post_ids_free (o : ObjectId) (l : list PostSchema.t) :
  (forall q, In q l -> PostSchema._id q <> o) ->
  existsb (fun q => oid_eqb (PostSchema._id q) o) l = false.
Proof.
  intros H. apply not_true_is_false. intros E. apply existsb_exists in E.
  destruct E as (q & Hq & E). apply oid_eqb_eq in E. exact (H q Hq E).
Qed.

Lemma trimStart_blank (s : string) : string_forall ws1 s = true -> trimStart s = "".
Proof.
  unfold trimStart. induction s as [|a s IH]; simpl; [reflexivity|].
  intros H. apply andb_true_iff in H. destruct H as [Ha Hs]. rewrite Ha. now apply IH.
Qed.

(** Content made only of spaces, tabs and line breaks is blank. *)
Lemma trim_blank (s : string) : string_forall ws1 s = true -> trim s = "".
Proof. intros H. unfold trim. now rewrite (trimStart_blank s H). Qed.

(** What a post creation that goes through answers and leaves behind. *)
Lemma post_posts_stores (env : Env) (s : Store) (userId content : string)
      (image privacy : option string) (owner : ObjectId) (pr : Privacy) :
  castObjectId userId = Some owner ->
  match privacy with Some n => privacy_of_name n | None => Some Public end = Some pr ->
  trim content <> "" ->
  (forall q, In q (posts s) -> PostSchema._id q <> newId env) ->
  let p := PostSchema.mk (newId env) owner (trim content)
                         match image with Some i => i | None => "" end
                         [] [] pr (now env) (now env) in
  route (post_posts env userId content image privacy) s =
    (mkResponse 201
       (JObj (PostSchema.toJSON
                match User.populated ["username"; "profilePicture"] s owner with
                | Some j => j
                | None => JNull
                end p)),
     mkStore (users s) (posts s ++ [p])).
Proof.
  intros Hcast Hpr Hc Hfresh p.
  unfold route, post_posts, bind, Post_new. rewrite Hcast, Hpr.
  unfold Post_save_new, bind.
  cbn [Document.fresh Document.value PostSchema.content PostSchema._id].
  rewrite (nonempty_eqb Hc). cbn [get].
  rewrite (post_ids_free _ Hfresh).
  cbn [put ret fst snd Document.loaded Document.value].
  rewrite (Post_findById_run _ _ (cast_toString _)).
  cbn [Post.set_posts posts users].
  unfold Post_set_createdAt, Post.set_updatedAt.
  cbn [PostSchema._id PostSchema.userId PostSchema.content PostSchema.image
       PostSchema.likes PostSchema.comments PostSchema.privacy
       PostSchema.createdAt PostSchema.updatedAt].
  fold p.
  rewrite (@lookup_snoc_new _ PostSchema._id (newId env) (posts s) p Hfresh eq_refl).
  reflexivity.
Qed.

(** X9.  [createPost]: a post is stored only when the owner is a well-formed
    identifier, the content is not blank once trimmed, and the privacy, if
    given, is one of the three names; otherwise the answer is 500 and
    nothing is written.  A post that is stored is appended with the trimmed
    content, no like, no comment and the defaults of the schema, and the
    answer is 201 with the owner's [_id], [username] and [profilePicture] in
    place of the reference; the route does not ask that the owner be a
    stored user, and answers [null] there when it is not. *)
Theorem post_posts_spec (env : Env) (s : Store) (userId content : string)
        (image privacy : option string) :
  let r := route (post_posts env userId content image privacy) s in
  let chosen := match privacy with
                | Some n => privacy_of_name n
                | None => Some Public
                end in
  (castObjectId userId = None \/ trim content = "" \/ chosen = None ->
   r = (internal_server_error, s)) /\
  (forall owner pr,
     castObjectId userId = Some owner -> chosen = Some pr -> trim content <> "" ->
     (forall q, In q (posts s) -> PostSchema._id q <> newId env) ->
     status (fst r) = 201 /\
     users (snd r) = users s /\
     posts (snd r) =
       posts s ++ [PostSchema.mk (newId env) owner (trim content)
                                 match image with Some i => i | None => "" end
                                 [] [] pr (now env) (now env)] /\
     field "userId" (fields_of (body (fst r))) =
       Some match lookup UserSchema._id owner (users s) with
            | Some u => card u
            | None => JNull
            end).
Proof.
  intros r chosen. split.
  - intros H. subst r chosen. unfold route, post_posts, bind, Post_new.
    destruct (castObjectId userId) as [owner|]; [|reflexivity].
    destruct (match privacy with Some n => privacy_of_name n | None => Some Public end)
      as [pr|]; [|reflexivity].
    destruct H as [H|[H|H]]; try discriminate.
    unfold Post_save_new, bind. cbn [Document.fresh Document.value PostSchema.content].
    now rewrite H.
  - intros owner pr Hcast Hpr Hc Hfresh. subst r chosen.
    rewrite (post_posts_stores env s userId content image privacy Hcast Hpr Hc Hfresh).
    cbn [fst snd status body users posts fields_of]. repeat split.
    unfold User.populated.
    destruct (lookup UserSchema._id owner (users s)); reflexivity.
Qed.

Lemma post_posts_spec_witness :
  posts (snd (route (post_posts Fixture.env0 "AAAAAAAAAAAAAAAAAAAAAAAA"
                                "  hello again  " None None) Fixture.store0))
  = posts Fixture.store0 ++
    [PostSchema.mk Fixture.carol_id Fixture.alice_id "hello again" "" [] []
                   Public 7200000 7200000].
Proof.
  destruct (post_posts_spec Fixture.env0 Fixture.store0 "AAAAAAAAAAAAAAAAAAAAAAAA"
              "  hello again  " None None) as [_ H].
  destruct (H Fixture.alice_id Public eq_refl eq_refl) as (_ & _ & E & _).
  - discriminate.
  - intros q [<-|[<-|[]]] E; apply (f_equal oidToString) in E; discriminate E.
  - exact E.
Defined.

(** X10.  A post whose content is empty or made only of spaces, tabs and line
    breaks is refused: 500, nothing stored. *)
Theorem post_posts_blank (env : Env) (s : Store) (userId content : string)
        (image privacy : option string) :
  string_forall ws1 content = true ->
  route (post_posts env userId content image privacy) s = (internal_server_error, s).
Proof.
  intros H. unfold route, post_posts, bind, Post_new.
  destruct (castObjectId userId) as [owner|]; [|reflexivity].
  destruct (match privacy with Some n => privacy_of_name n | None => Some Public end)
    as [pr|]; [|reflexivity].
  unfold Post_save_new, bind. cbn [Document.fresh Document.value PostSchema.content].
  now rewrite (trim_blank content H).
Qed.

Lemma post_posts_blank_witness :
  route (post_posts Fixture.env0 "aaaaaaaaaaaaaaaaaaaaaaaa" "   " None None)
        Fixture.store0
  = (internal_server_error, Fixture.store0).
Proof. apply post_posts_blank. reflexivity. Defined.

(** ** Posts: creating, listing, deleting *)

Lemma get_posts_body (s : Store) :
  fst (route get_posts s) = json (JArr (map (listed s) (posts s))).
Proof.
  unfold route, get_posts, Post.find_all, Post.populate_userId, bind. simpl.
  now rewrite map_map.
Qed.

(** The listing shows a post with its owner read from the users alone. *)
Lemma listed_users (s s' : Store) (p : PostSchema.t) :
  users s' = users s -> listed s' p = listed s p.
Proof. intros E. unfold listed, User.populated. now rewrite E. Qed.

(** X11.  Creating, then listing.  After a post creation that went through, the
    listing is the former listing followed by one entry: the new post with
    its trimmed content, and, when the owner is a stored user, that user's
    username in place of the owner reference. *)
Theorem create_then_list (env : Env) (s : Store) (userId content : string)
        (image privacy : option string) (owner : ObjectId) (pr : Privacy) :
  castObjectId userId = Some owner ->
  match privacy with Some n => privacy_of_name n | None => Some Public end = Some pr ->
  trim content <> "" ->
  (forall q, In q (posts s) -> PostSchema._id q <> newId env) ->
  let s1 := snd (route (post_posts env userId content image privacy) s) in
  exists entry,
    elements (body (fst (route get_posts s1)))
      = elements (body (fst (route get_posts s))) ++ [entry] /\
    field "_id" (fields_of entry) = Some (JId (newId env)) /\
    field "content" (fields_of entry) = Some (JStr (trim content)) /\
    field "likes" (fields_of entry) = Some (JArr []) /\
    field "privacy" (fields_of entry) = Some (JStr (privacy_name pr)) /\
    forall u, lookup UserSchema._id owner (users s) = Some u ->
      field "userId" (fields_of entry)
        = Some (JObj [("_id", JId (UserSchema._id u));
                      ("username", JStr (UserSchema.username u))]).
Proof.
  intros Hcast Hpr Hc Hfresh s1. subst s1.
  rewrite (post_posts_stores env s userId content image privacy Hcast Hpr Hc Hfresh).
  cbn [snd]. rewrite !get_posts_body. cbn [json body elements posts].
  rewrite map_app. cbn [map].
  match goal with
  | |- context [map (listed ?s1) (posts s)] =>
      assert (M : map (listed s1) (posts s) = map (listed s) (posts s))
        by (apply map_ext; intros q; now apply listed_users);
      rewrite M
  end.
  eexists. split; [reflexivity|].
  unfold listed. cbn [fields_of]. repeat split.
  intros u Hu. simpl. unfold User.populated. cbn [users]. now rewrite Hu.
Qed.

Lemma create_then_list_witness :
  let s1 := snd (route (post_posts Fixture.env0 "bbbbbbbbbbbbbbbbbbbbbbbb"
                                   " hello " None (Some "Friends"))
                       Fixture.store0) in
  exists entry,
    nth_error (elements (body (fst (route get_posts s1)))) 2 = Some entry /\
    field "content" (fields_of entry) = Some (JStr "hello") /\
    field "userId" (fields_of entry)
      = Some (JObj [("_id", JStr "bbbbbbbbbbbbbbbbbbbbbbbb");
                    ("username", JStr "bob")]).
Proof.
  destruct (create_then_list Fixture.env0 Fixture.store0 "bbbbbbbbbbbbbbbbbbbbbbbb"
              " hello " None (Some "Friends") (owner := Fixture.bob_id)
              (pr := Friends) eq_refl eq_refl)
    as (entry & E & _ & Hc & _ & _ & Hu).
  - discriminate.
  - intros q [<-|[<-|[]]] H; apply (f_equal oidToString) in H; discriminate H.
  - exists entry. split; [|split].
    + cbv zeta. rewrite E. reflexivity.
    + exact Hc.
    + exact (Hu Fixture.bob eq_refl).
Defined.

(** X12.  Creating, then deleting.  A post creation that went through followed by
    its deletion under the printed identifier of the owner gives back the
    store as it was before the two requests. *)
Theorem create_then_delete (env : Env) (s : Store) (owner : ObjectId)
        (content : string) (image privacy : option string) (pr : Privacy) :
  match privacy with Some n => privacy_of_name n | None => Some Public end = Some pr ->
  trim content <> "" ->
  (forall q, In q (posts s) -> PostSchema._id q <> newId env) ->
  let s1 := snd (route (post_posts env (oidToString owner) content image privacy) s) in
  route (delete_posts (oidToString (newId env)) (oidToString owner)) s1
  = (json (JObj [("message", JStr "Post deleted successfully");
                 ("postId", JStr (oidToString (newId env)))]), s).
Proof.
  intros Hpr Hc Hfresh s1. subst s1.
  rewrite (post_posts_stores env s (oidToString owner) content image privacy
             (cast_toString owner) Hpr Hc Hfresh).
  cbn [snd]. unfold route, delete_posts, bind.
  rewrite (Post_findById_run _ _ (cast_toString _)). cbn [posts].
  match goal with
  | |- context [posts s ++ [?p]] =>
      rewrite (@lookup_snoc_new _ PostSchema._id (newId env) (posts s) p
                 Hfresh eq_refl)
  end.
  cbn [option_map Document.value Document.loaded PostSchema.userId].
  rewrite String.eqb_refl. cbn [negb].
  unfold Post.findByIdAndDelete, bind. rewrite (cast_run _ _ (cast_toString _)).
  cbn [get put ret fst snd posts users Post.set_posts].
  match goal with
  | |- context [posts s ++ [?p]] =>
      rewrite (@deleteOne_snoc _ PostSchema._id (newId env) (posts s) p
                 Hfresh eq_refl)
  end.
  now destruct s.
Qed.

Lemma create_then_delete_witness :
  let s1 := snd (route (post_posts Fixture.env0 "aaaaaaaaaaaaaaaaaaaaaaaa"
                                   "short-lived" None None) Fixture.store0) in
  snd (route (delete_posts "cccccccccccccccccccccccc" "aaaaaaaaaaaaaaaaaaaaaaaa") s1)
  = Fixture.store0.
Proof.
  pose proof (create_then_delete Fixture.env0 Fixture.store0 Fixture.alice_id
                "short-lived" None None (pr := Public) eq_refl) as H.
  cbv zeta in H. cbv zeta. unfold oidToString in H. simpl proj1_sig in H.
  rewrite H; [reflexivity|discriminate|].
  intros q [<-|[<-|[]]] E; apply (f_equal oidToString) in E; discriminate E.
Defined.

Lemma lookup_gone (A : Type) (key : A -> ObjectId) (o : ObjectId)
      (before after : list A) (a : A) :
  NoDup (map key (before ++ a :: after)) -> key a = o ->
  lookup key o (before ++ after) = None.
Proof.
  intros Hnd Ha. rewrite map_app in Hnd. simpl in Hnd.
  apply NoDup_remove_2 in Hnd. rewrite <- map_app, Ha in Hnd.
  destruct (lookup key o (before ++ after)) as [b|] eqn:E; [|reflexivity].
  destruct (lookup_Some _ _ _ E) as [Hb Hk]. exfalso. apply Hnd.
  rewrite <- Hk. now apply in_map.
Qed.

(** X13.  Deleting twice.  With identifiers that are unique, as the collection
    keeps them, a post that its owner deleted is gone: it is not found any
    more, a second deletion answers 404 whoever asks, and the listing is the
    former listing without that post's entry, the others in their order. *)
Theorem delete_then_ask_again (s : Store) (o : ObjectId) (p : PostSchema.t)
        (anyone : string) :
  NoDup (map PostSchema._id (posts s)) ->
  lookup PostSchema._id o (posts s) = Some p ->
  let s1 := snd (route (delete_posts (oidToString o)
                                     (oidToString (PostSchema.userId p))) s) in
  lookup PostSchema._id o (posts s1) = None /\
  route (delete_posts (oidToString o) anyone) s1 = (error 404 "Post not found", s1) /\
  exists before after,
    elements (body (fst (route get_posts s)))
      = map (listed s) before ++ listed s p :: map (listed s) after /\
    elements (body (fst (route get_posts s1)))
      = map (listed s) before ++ map (listed s) after.
Proof.
  intros Hnd Hp s1.
  pose proof (delete_posts_run s (oidToString o) (oidToString (PostSchema.userId p))
                (cast_toString o)) as H.
  cbv zeta in H. rewrite Hp in H. destruct H as [_ H].
  destruct (H eq_refl) as (_ & Hu & l1 & l2 & E & E' & _). fold s1 in Hu, E'.
  destruct (lookup_Some _ _ _ Hp) as [_ Hkey].
  assert (Hgone : lookup PostSchema._id o (posts s1) = None).
  { rewrite E'. rewrite E in Hnd. exact (lookup_gone PostSchema._id l1 l2 p Hnd Hkey). }
  split; [exact Hgone|]. split.
  - pose proof (delete_posts_run s1 (oidToString o) anyone (cast_toString o)) as H2.
    cbv zeta in H2. now rewrite Hgone in H2.
  - exists l1, l2. rewrite !get_posts_body. cbn [json body elements].
    rewrite E, E', !map_app. cbn [map]. split; [reflexivity|].
    f_equal; apply map_ext; intros q; now apply listed_users.
Qed.

Lemma delete_then_ask_again_witness :
  let s1 := snd (route (delete_posts "111111111111111111111111"
                                     "aaaaaaaaaaaaaaaaaaaaaaaa") Fixture.store0) in
  route (delete_posts "111111111111111111111111" "aaaaaaaaaaaaaaaaaaaaaaaa") s1
  = (error 404 "Post not found", s1).
Proof.
  assert (Hnd : NoDup (map PostSchema._id (posts Fixture.store0))).
  { repeat constructor; simpl; intros H; repeat destruct H as [H|H];
      try (apply (f_equal oidToString) in H; discriminate H); assumption. }
  destruct (@delete_then_ask_again Fixture.store0 Fixture.post1_id Fixture.post1
              "aaaaaaaaaaaaaaaaaaaaaaaa" Hnd eq_refl)
    as (_ & H & _).
  exact H.
Defined.

(** ** Likes and friends *)

(** X14.  The like route answers 200 only with the post as it is stored after the
    call; every other answer is the 500 of the error middleware. *)
Theorem post_post_like_answers_stored (env : Env) (s : Store)
        (userId postId : string) :
  let r := route (post_post_like env userId postId) s in
  fst r = internal_server_error \/
  exists o p',
    castObjectId postId = Some o /\
    lookup PostSchema._id o (posts (snd r)) = Some p' /\
    fst r = json (Post.plain p').
Proof.
  intros r. subst r. unfold route, post_post_like, bind.
  destruct (castObjectId postId) as [o|] eqn:Hc.
  - rewrite (Post_findById_run _ s Hc).
    destruct (lookup PostSchema._id o (posts s)) as [p|] eqn:Hp;
      cbn [option_map]; [|now left].
    destruct (lookup_Some _ _ _ Hp) as [_ Hkey].
    cbn [Document.value Document.loaded].
    destruct (MongooseArray.includes (PostSchema.likes p) userId); cbn [negb].
    + unfold Post.findByIdAndUpdate_pull_likes, bind. rewrite (cast_run _ s Hc).
      destruct (castObjectId userId) as [u|] eqn:Hu.
      * rewrite (cast_run _ s Hu). cbn [get]. rewrite Hp. simpl.
        right. exists o. eexists. split; [reflexivity|]. split; [|reflexivity].
        destruct (@lookup_updateOne_same _ PostSchema._id o p
                    (Post.set_updatedAt (now env)
                       (Post.set_likes (MongooseArray.pull (PostSchema.likes p) u) p))
                    _ Hp) as [E|E]; [exact E|now elim E].
      * rewrite (cast_fail _ s Hu). now left.
    + unfold MongooseArray.push, bind.
      destruct (castObjectId userId) as [u|] eqn:Hu.
      * rewrite (cast_run _ s Hu). simpl. rewrite Hkey.
        right. exists o. eexists. split; [reflexivity|]. split; [|reflexivity].
        destruct (@lookup_updateOne_same _ PostSchema._id o p
                    (Post.set_updatedAt (now env)
                       (Post.set_likes (PostSchema.likes p ++ [u]) p))
                    _ Hp) as [E|E]; [exact E|now elim E].
      * rewrite (cast_fail _ s Hu). now left.
  - unfold Post.findById, bind. rewrite (cast_fail _ s Hc). now left.
Qed.

(** A string that is read as an identifier without being its printed form
    (upper-case digits) is in no list of references. *)
Lemma includes_other_spelling (arr : list ObjectId) (raw : string) (f : ObjectId) :
  castObjectId raw = Some f -> raw <> oidToString f ->
  MongooseArray.includes arr raw = false.
Proof.
  intros Hc Hne. apply not_true_is_false. intros H.
  unfold MongooseArray.includes in H. apply existsb_exists in H.
  destruct H as (x & _ & E). apply String.eqb_eq in E. subst raw.
  rewrite cast_toString in Hc. injection Hc as ->. now apply Hne.
Qed.

(** X15.  The membership test of the add-friend route compares strings: a
    [friendId] that spells an identifier otherwise than its printed form is
    never found, so the friend is appended on every call, listed or not. *)
Theorem post_add_friend_other_spelling (env : Env) (s : Store)
        (userId friendId : string) (o f : ObjectId) (usr : UserSchema.t) :
  castObjectId userId = Some o ->
  lookup UserSchema._id o (users s) = Some usr ->
  castObjectId friendId = Some f ->
  friendId <> oidToString f ->
  let r := route (post_add_friend env userId friendId) s in
  status (fst r) = 200 /\
  friends_of o (snd r) = Some (UserSchema.friends usr ++ [f]) /\
  occurrences f (UserSchema.friends usr ++ [f])
    = S (occurrences f (UserSchema.friends usr)).
Proof.
  intros Hc Hu Hf Hne r. subst r.
  destruct (lookup_Some _ _ _ Hu) as [_ Hkey].
  unfold route, post_add_friend, bind.
  rewrite (User_findById_run _ s Hc), Hu. cbn [option_map Document.value Document.loaded].
  rewrite (includes_other_spelling (UserSchema.friends usr) Hf Hne). cbn [negb].
  unfold MongooseArray.push, bind. rewrite (cast_run _ s Hf). simpl.
  split; [reflexivity|]. split.
  - unfold friends_of. simpl. rewrite Hkey.
    destruct (@lookup_updateOne_same _ UserSchema._id o usr
                (User.set_updatedAt (now env)
                   (User.set_friends (UserSchema.friends usr ++ [f]) usr))
                _ Hu) as [E|E]; [now rewrite E|now elim E].
  - rewrite occurrences_app. unfold occurrences at 2. simpl.
    rewrite oid_eqb_refl. simpl. lia.
Qed.

Lemma post_add_friend_other_spelling_witness :
  friends_of Fixture.bob_id
    (snd (route (post_add_friend Fixture.env0 "bbbbbbbbbbbbbbbbbbbbbbbb"
                                 "AAAAAAAAAAAAAAAAAAAAAAAA") Fixture.store0))
  = Some [Fixture.alice_id; Fixture.alice_id].
Proof.
  destruct (@post_add_friend_other_spelling Fixture.env0 Fixture.store0
              "bbbbbbbbbbbbbbbbbbbbbbbb" "AAAAAAAAAAAAAAAAAAAAAAAA"
              Fixture.bob_id Fixture.alice_id Fixture.bob eq_refl eq_refl eq_refl)
    as (_ & H & _).
  - discriminate.
  - exact H.
Defined.

(** X16.  The same holds for the like route: a [userId] spelt otherwise than the
    printed form is appended to the like-list on every call and is never
    removed by a toggle. *)
Theorem post_post_like_other_spelling (env : Env) (s : Store)
        (userId postId : string) (o u : ObjectId) (p : PostSchema.t) :
  castObjectId postId = Some o ->
  lookup PostSchema._id o (posts s) = Some p ->
  castObjectId userId = Some u ->
  userId <> oidToString u ->
  let r := route (post_post_like env userId postId) s in
  status (fst r) = 200 /\
  likes_of o (snd r) = Some (PostSchema.likes p ++ [u]).
Proof.
  intros Hc Hp Hu Hne r. subst r.
  destruct (lookup_Some _ _ _ Hp) as [_ Hkey].
  unfold route, post_post_like, bind.
  rewrite (Post_findById_run _ s Hc), Hp. cbn [option_map Document.value Document.loaded].
  rewrite (includes_other_spelling (PostSchema.likes p) Hu Hne). cbn [negb].
  unfold MongooseArray.push, bind. rewrite (cast_run _ s Hu). simpl.
  split; [reflexivity|].
  unfold likes_of. simpl. rewrite Hkey.
  destruct (@lookup_updateOne_same _ PostSchema._id o p
              (Post.set_updatedAt (now env)
                 (Post.set_likes (PostSchema.likes p ++ [u]) p))
              _ Hp) as [E|E]; [now rewrite E|now elim E].
Qed.

Lemma post_post_like_other_spelling_witness :
  likes_of Fixture.post1_id
    (snd (route (post_post_like Fixture.env0 "BBBBBBBBBBBBBBBBBBBBBBBB"
                                "111111111111111111111111") Fixture.store0))
  = Some [Fixture.alice_id; Fixture.bob_id; Fixture.bob_id].
Proof.
  destruct (@post_post_like_other_spelling Fixture.env0 Fixture.store0
              "BBBBBBBBBBBBBBBBBBBBBBBB" "111111111111111111111111"
              Fixture.post1_id Fixture.bob_id Fixture.post1 eq_refl eq_refl eq_refl)
    as (_ & H).
  - discriminate.
  - exact H.
Defined.

(** ** The friends listing *)

Lemma friends_listing (s : Store) (userId : string) (o : ObjectId)
      (usr : UserSchema.t) :
  castObjectId userId = Some o ->
  lookup UserSchema._id o (users s) = Some usr ->
  route (get_user_friends userId) s =
    (json (JArr (flat_map
                   (fun f => match lookup UserSchema._id f (users s) with
                             | Some u => [card u]
                             | None => []
                             end)
                   (UserSchema.friends usr))), s).
Proof.
  intros Hc Hu. unfold route, get_user_friends, bind.
  rewrite (User_findById_run _ s Hc), Hu.
  cbn [get ret option_map Document.value Document.loaded].
  do 3 f_equal. apply flat_map_ext. intros f. unfold User.populated.
  now destruct (lookup UserSchema._id f (users s)).
Qed.

(** X17.  [listFriends(userId)] for an existing user answers 200 with, in the
    order of the friends list, the [_id], [username] and [profilePicture] of
    each friend that is a stored user; a friend that is not is left out, and
    nothing else is listed.  The store is not written. *)
Theorem get_user_friends_spec (s : Store) (userId : string) (o : ObjectId)
        (usr : UserSchema.t) :
  castObjectId userId = Some o ->
  lookup UserSchema._id o (users s) = Some usr ->
  let r := route (get_user_friends userId) s in
  status (fst r) = 200 /\
  snd r = s /\
  (forall j, In j (elements (body (fst r))) <->
     exists f u, In f (UserSchema.friends usr) /\
                 lookup UserSchema._id f (users s) = Some u /\ j = card u) /\
  ((forall f, In f (UserSchema.friends usr) ->
      lookup UserSchema._id f (users s) <> None) ->
   map (fun j => field "_id" (fields_of j)) (elements (body (fst r)))
     = map (fun f => Some (JId f)) (UserSchema.friends usr)).
Proof.
  intros Hc Hu r. subst r. rewrite (friends_listing s userId Hc Hu).
  cbn [fst snd status json body elements].
  split; [reflexivity|]. split; [reflexivity|]. split.
  - intros j. rewrite in_flat_map. split.
    + intros (f & Hf & Hj).
      destruct (lookup UserSchema._id f (users s)) as [u|] eqn:E; [|destruct Hj].
      destruct Hj as [<-|[]]. now exists f, u.
    + intros (f & u & Hf & E & ->). exists f. split; [assumption|].
      rewrite E. now left.
  - intros Hall. induction (UserSchema.friends usr) as [|f l IH]; [reflexivity|].
    cbn [flat_map].
    destruct (lookup UserSchema._id f (users s)) as [u|] eqn:E.
    + destruct (lookup_Some _ _ _ E) as [_ Hk].
      rewrite map_app, IH.
      * simpl. now rewrite Hk.
      * intros g Hg. apply Hall. now right.
    + exfalso. apply (Hall f); [now left|assumption].
Qed.

Lemma get_user_friends_spec_witness :
  map (fun j => field "_id" (fields_of j))
      (elements (body (fst (route (get_user_friends "bbbbbbbbbbbbbbbbbbbbbbbb")
                                  Fixture.store0))))
  = [Some (JStr "aaaaaaaaaaaaaaaaaaaaaaaa")].
Proof.
  destruct (@get_user_friends_spec Fixture.store0 "bbbbbbbbbbbbbbbbbbbbbbbb"
              Fixture.bob_id Fixture.bob eq_refl eq_refl) as (_ & _ & _ & H).
  simpl in H. apply H. intros f [<-|[]]. discriminate.
Defined.

(** X18.  Adding a friend, then listing.  Once [addFriend(userId, friendId)] has
    been answered for an existing user and a friend that is a stored user,
    the friends listing of that user shows the friend. *)
Theorem add_friend_then_friends (env : Env) (s : Store) (userId : string)
        (o f : ObjectId) (usr friend : UserSchema.t) :
  castObjectId userId = Some o ->
  lookup UserSchema._id o (users s) = Some usr ->
  lookup UserSchema._id f (users s) = Some friend ->
  let s1 := snd (route (post_add_friend env userId (oidToString f)) s) in
  In (card friend) (elements (body (fst (route (get_user_friends userId) s1)))).
Proof.
  intros Hc Hu Hf s1.
  destruct (post_add_friend_step env s userId f Hc Hu) as (_ & Hin & Hout).
  fold s1 in Hin, Hout.
  destruct (lookup_Some _ _ _ Hu) as [_ Hkey].
  destruct (lookup_Some _ _ _ Hf) as [_ Hfkey].
  set (usr' := User.set_updatedAt (now env)
                 (User.set_friends (UserSchema.friends usr ++ [f]) usr)) in *.
  assert (H1 : exists usr1 friend1,
             lookup UserSchema._id o (users s1) = Some usr1 /\
             In f (UserSchema.friends usr1) /\
             lookup UserSchema._id f (users s1) = Some friend1 /\
             card friend1 = card friend).
  { destruct (MongooseArray.includes (UserSchema.friends usr) (oidToString f)) eqn:Hinc.
    - apply includes_In in Hinc. rewrite (Hin Hinc). now exists usr, friend.
    - apply includes_not_In in Hinc. rewrite (Hout Hinc). cbn [users User.set_users].
      destruct (@lookup_updateOne_same _ UserSchema._id o usr usr' _ Hu) as [E|E];
        [|now elim E].
      destruct (oid_eqb f o) eqn:Efo.
      + apply oid_eqb_eq in Efo.
        assert (Efr : friend = usr) by (rewrite Efo in Hf; congruence).
        exists usr', usr'. rewrite Efo, E. repeat split.
        * apply in_app_iff. right. now left.
        * now rewrite Efr.
      + apply oid_eqb_neq in Efo. exists usr', friend. rewrite E.
        repeat split.
        * apply in_app_iff. right. now left.
        * now rewrite (@lookup_updateOne_other _ UserSchema._id o f usr' (users s) Efo Hkey). }
  destruct H1 as (usr1 & friend1 & Hu1 & Hfin & Hf1 & Hcard).
  rewrite (friends_listing s1 userId Hc Hu1). cbn [fst json body elements].
  apply in_flat_map. exists f. split; [assumption|]. rewrite Hf1, Hcard. now left.
Qed.

Lemma add_friend_then_friends_witness :
  let s1 := snd (route (post_add_friend Fixture.env0 "aaaaaaaaaaaaaaaaaaaaaaaa"
                                        "bbbbbbbbbbbbbbbbbbbbbbbb") Fixture.store0) in
  In (card Fixture.bob)
     (elements (body (fst (route (get_user_friends "aaaaaaaaaaaaaaaaaaaaaaaa") s1)))).
Proof.
  exact (@add_friend_then_friends Fixture.env0 Fixture.store0
           "aaaaaaaaaaaaaaaaaaaaaaaa" Fixture.alice_id Fixture.bob_id
           Fixture.alice Fixture.bob eq_refl eq_refl eq_refl).
Defined.

(** ** Profile pictures and profiles *)

(** X19.  The last picture wins: two updates of the same user leave the store
    that the second alone would leave, whatever the identifier sent. *)
Theorem put_users_profile_picture_twice (env env' : Env) (s : Store)
        (id first second : string) :
  snd (route (put_users_profile_picture env' id second)
             (snd (route (put_users_profile_picture env id first) s)))
  = snd (route (put_users_profile_picture env' id second) s).
Proof.
  unfold route, put_users_profile_picture, User.findByIdAndUpdate, bind.
  destruct (castObjectId id) as [o|] eqn:Hc.
  - rewrite !(cast_run _ _ Hc). cbn [get].
    destruct (lookup UserSchema._id o (users s)) as [u|] eqn:Hu.
    + cbn [put ret fst snd].
      destruct (lookup_split _ _ _ Hu) as (l1 & l2 & E & Hl1).
      destruct (lookup_Some _ _ _ Hu) as [_ Hkey].
      cbn [users User.set_users]. rewrite E.
      rewrite (updateOne_split UserSchema._id
                 (fun _ => User.set_updatedAt (now env)
                             (User.set_profilePicture first u)) l1 l2 u Hkey Hl1).
      rewrite (@lookup_middle _ UserSchema._id o l1 l2
                 (User.set_updatedAt (now env) (User.set_profilePicture first u))
                 Hkey Hl1).
      cbn [put ret fst snd users User.set_users posts].
      rewrite (updateOne_split UserSchema._id
                 (fun _ => User.set_updatedAt (now env')
                             (User.set_profilePicture second
                                (User.set_updatedAt (now env)
                                   (User.set_profilePicture first u))))
                 l1 l2
                 (User.set_updatedAt (now env) (User.set_profilePicture first u))
                 Hkey Hl1).
      rewrite (updateOne_split UserSchema._id
                 (fun _ => User.set_updatedAt (now env')
                             (User.set_profilePicture second u)) l1 l2 u Hkey Hl1).
      reflexivity.
    + cbn [ret fst snd]. rewrite ?(cast_run _ _ Hc). cbn [get]. now rewrite Hu.
  - rewrite !(cast_fail _ _ Hc). cbn [fst snd]. now rewrite ?(cast_fail _ _ Hc).
Qed.

(** X20.  The answer to a profile-picture update carries the whole user document:
    its [password] field is the stored hash and its [email] the stored
    email, where the profile route leaves the hash out. *)
Theorem put_users_profile_picture_returns_hash (env : Env) (s : Store)
        (id profilePicture : string) (o : ObjectId) (u : UserSchema.t) :
  castObjectId id = Some o ->
  lookup UserSchema._id o (users s) = Some u ->
  exists user,
    field "user" (fields_of (body (fst (route (put_users_profile_picture
                                                env id profilePicture) s))))
      = Some user /\
    field "password" (fields_of user) = Some (JStr (UserSchema.password u)) /\
    field "email" (fields_of user) = Some (JStr (UserSchema.email u)) /\
    has_field "password" (body (fst (route (get_user id) s))) = false.
Proof.
  intros Hc Hu.
  unfold route, put_users_profile_picture, User.findByIdAndUpdate, get_user, bind.
  rewrite (cast_run _ s Hc), (User_findById_run _ s Hc). cbn [get]. rewrite Hu.
  simpl. eexists. repeat split.
Qed.

Lemma put_users_profile_picture_returns_hash_witness :
  exists user,
    field "user" (fields_of (body (fst (route (put_users_profile_picture
                                                Fixture.env0
                                                "bbbbbbbbbbbbbbbbbbbbbbbb"
                                                "/uploads/new.png")
                                              Fixture.store0))))
      = Some user /\
    field "password" (fields_of user) = Some (JStr "$saltbuilder").
Proof.
  destruct (@put_users_profile_picture_returns_hash Fixture.env0 Fixture.store0
              "bbbbbbbbbbbbbbbbbbbbbbbb" "/uploads/new.png" Fixture.bob_id Fixture.bob
              eq_refl eq_refl) as (user & H1 & H2 & _).
  exists user. now split.
Defined.

(** X21.  The profile route has no test for a missing user: it answers 200 with
    [null] for an identifier that no user has, 500 for a string that is not
    an identifier, and never 404. *)
Theorem get_user_status (s : Store) (id : string) :
  let r := route (get_user id) s in
  match castObjectId id with
  | None => fst r = internal_server_error
  | Some o =>
      status (fst r) = 200 /\
      (lookup UserSchema._id o (users s) = None <-> body (fst r) = JNull)
  end /\
  status (fst r) <> 404.
Proof.
  intros r. subst r. unfold route, get_user, bind.
  destruct (castObjectId id) as [o|] eqn:Hc.
  - rewrite (User_findById_run _ s Hc). cbn [ret fst snd].
    destruct (lookup UserSchema._id o (users s)); simpl;
      repeat split; try discriminate; congruence.
  - unfold User.findById, bind. rewrite (cast_fail _ s Hc). simpl.
    split; [reflexivity|discriminate].
Qed.

(** X22.  No listing shows a password hash or an email: neither the entries of
    the users listing and of the friends listing, nor the owner that the
    posts listing puts in each post. *)
Theorem listings_hide_credentials (s : Store) (userId : string) :
  (forall j, In j (elements (body (fst (route (get_users userId) s)))) ->
     has_field "password" j = false /\ has_field "email" j = false) /\
  (forall j, In j (elements (body (fst (route (get_user_friends userId) s)))) ->
     has_field "password" j = false /\ has_field "email" j = false) /\
  (forall e owner, In e (elements (body (fst (route get_posts s)))) ->
     field "userId" (fields_of e) = Some owner ->
     has_field "password" owner = false /\ has_field "email" owner = false).
Proof.
  split; [|split].
  - unfold route, get_users, User.find_ne, bind.
    destruct (castObjectId userId) as [o|] eqn:Hc.
    + rewrite (cast_run _ s Hc). simpl. intros j Hj.
      apply in_map_iff in Hj. destruct Hj as (u & <- & _). now split.
    + rewrite (cast_fail _ s Hc). simpl. intros j [].
  - unfold route, get_user_friends, bind.
    destruct (castObjectId userId) as [o|] eqn:Hc.
    + rewrite (User_findById_run _ s Hc). cbn [get].
      destruct (lookup UserSchema._id o (users s)) as [u|]; simpl; [|intros j []].
      intros j Hj. apply in_flat_map in Hj. destruct Hj as (f & _ & Hj).
      unfold User.populated in Hj.
      destruct (lookup UserSchema._id f (users s)); simpl in Hj; [|destruct Hj].
      destruct Hj as [<-|[]]. now split.
    + unfold User.findById, bind. rewrite (cast_fail _ s Hc). simpl. intros j [].
  - rewrite get_posts_body. cbn [json body elements]. intros e owner He.
    apply in_map_iff in He. destruct He as (p & <- & _).
    unfold listed, User.populated. simpl.
    destruct (lookup UserSchema._id (PostSchema.userId p) (users s));
      intros [= <-]; now split.
Qed.

(** ** Liking, then listing *)

(** X23.  Once a like has been answered for an existing post and a user given by
    its printed identifier, the posts listing shows that post with the
    like-list the toggle left: the former one without the user when the user
    was in it, the former one followed by the user otherwise. *)
Theorem like_then_list (env : Env) (s : Store) (postId : string)
        (o u : ObjectId) (p : PostSchema.t) :
  castObjectId postId = Some o ->
  lookup PostSchema._id o (posts s) = Some p ->
  let s1 := snd (route (post_post_like env (oidToString u) postId) s) in
  exists entry,
    In entry (elements (body (fst (route get_posts s1)))) /\
    field "_id" (fields_of entry) = Some (JId o) /\
    field "likes" (fields_of entry) =
      Some (JArr (map JId
                      (if MongooseArray.includes (PostSchema.likes p) (oidToString u)
                       then MongooseArray.pull (PostSchema.likes p) u
                       else PostSchema.likes p ++ [u]))).
Proof.
  intros Hc Hp s1.
  destruct (post_post_like_step env s postId u Hc Hp) as (_ & _ & p' & Hp' & Hl).
  fold s1 in Hp'.
  destruct (lookup_Some _ _ _ Hp') as [Hin Hkey].
  exists (listed s1 p'). rewrite get_posts_body. cbn [json body elements].
  split; [now apply in_map|]. unfold listed. cbn [fields_of]. simpl.
  now rewrite Hkey, Hl.
Qed.

Lemma like_then_list_witness :
  let s1 := snd (route (post_post_like Fixture.env0 "aaaaaaaaaaaaaaaaaaaaaaaa"
                                       "222222222222222222222222")
                       Fixture.store0) in
  exists entry,
    In entry (elements (body (fst (route get_posts s1)))) /\
    field "_id" (fields_of entry) = Some (JStr "222222222222222222222222") /\
    field "likes" (fields_of entry) = Some (JArr [JStr "aaaaaaaaaaaaaaaaaaaaaaaa"]).
Proof.
  exact (@like_then_list Fixture.env0 Fixture.store0 "222222222222222222222222"
           Fixture.post2_id Fixture.alice_id Fixture.post2 eq_refl eq_refl).
Defined.
